(** * nfsstats: the mountstats parser of [nfsstats.go], embedded and verified

    The Go package reads a [/proc/<pid>/mountstats] file through a
    [bufio.Scanner] and returns one [NFSMount] per NFS mount of format
    [statvers=1.1].  The development follows the source function by
    function:

    - Go strings are byte strings ([string]); [uint64] values are [Z] in the
      range [0 .. 2^64-1];
    - a Go map is a [gmap] behind an [option] ([None] is the nil map), a
      pointer that may be nil is an [option];
    - a run-time panic (index out of range, assignment to an entry of a nil
      map) is the [Panic] outcome;
    - the [bufio.Scanner] is an explicit state threaded through the calls;
      the three [for scanner.Scan()] loops recurse on a fuel that
      is computed from the number of lines still to come. *)

From Stdlib Require Import ZArith Ascii String List Bool Lia.
From stdpp Require Import base option list strings gmap.

Local Open Scope string_scope.
Local Open Scope list_scope.
Local Open Scope stdpp_scope.
Local Open Scope Z_scope.

(** ** Outcomes of a call *)

Inductive outcome (A : Type) : Type :=
| Ret (a : A)     (* the call returned [a] *)
| Panic           (* the goroutine panicked *)
| Starved.        (* the model ran out of fuel (shown below never to happen) *)
Arguments Ret {A} a.
Arguments Panic {A}.
Arguments Starved {A}.

#[global] Instance outcome_ret : MRet outcome := fun A a => Ret a.

#[global] Instance outcome_bind : MBind outcome := fun A B k m =>
  match m with
  | Ret a => k a
  | Panic => Panic
  | Starved => Starved
  end.

(** [s[i]] on a slice: panics when [i] is out of range. *)
Definition index {A : Type} (s : list A) (i : nat) : outcome A :=
  match s !! i with
  | Some x => Ret x
  | None => Panic
  end.

(** [s[i:]] on a slice: panics when [i > len(s)]. *)
Definition slice_from {A : Type} (s : list A) (i : nat) : outcome (list A) :=
  if (i <=? length s)%nat then Ret (drop i s) else Panic.

(** ** The library functions the parser calls *)

Module strings.

Definition code (c : ascii) : Z := Z.of_N (N_of_ascii c).

(** Number of bytes of the white space rune (in the sense of Go's
    [unicode.IsSpace]) that is encoded at the head of [s]; [0] when [s] does
    not start with one.  The runes are U+0009..U+000D, U+0020, U+0085,
    U+00A0, U+1680, U+2000..U+200A, U+2028, U+2029, U+202F, U+205F and
    U+3000, in UTF-8.  Bytes that are no valid UTF-8 decode to U+FFFD, which
    is no white space, and a continuation byte never starts one of the
    encodings below, so looking for them byte by byte splits a string where
    Go's rune loop does. *)
Definition space_width (s : string) : nat :=
  match s with
  | EmptyString => 0%nat
  | String c0 r0 =>
    let b0 := code c0 in
    if ((9 <=? b0) && (b0 <=? 13)) || (b0 =? 32) then 1%nat
    else
      match r0 with
      | EmptyString => 0%nat
      | String c1 r1 =>
        let b1 := code c1 in
        if (b0 =? 194) && ((b1 =? 133) || (b1 =? 160)) then 2%nat
        else
          match r1 with
          | EmptyString => 0%nat
          | String c2 _ =>
            let b2 := code c2 in
            if (b0 =? 225) && (b1 =? 154) && (b2 =? 128) then 3%nat
            else if (b0 =? 226) && (b1 =? 128)
                    && (((128 <=? b2) && (b2 <=? 138))
                        || (b2 =? 168) || (b2 =? 169) || (b2 =? 175)) then 3%nat
            else if (b0 =? 226) && (b1 =? 129) && (b2 =? 159) then 3%nat
            else if (b0 =? 227) && (b1 =? 128) && (b2 =? 128) then 3%nat
            else 0%nat
          end
      end
  end.

Definition flush (word : string) : list string :=
  match word with
  | EmptyString => []
  | _ => [word]
  end.

(** [skip] counts the bytes of a white space rune still to be passed over,
    [word] is the field read so far. *)
Fixpoint Fields_from (s : string) (skip : nat) (word : string) : list string :=
  match s with
  | EmptyString => flush word
  | String c rest =>
    match skip with
    | S k => Fields_from rest k word
    | O =>
      match space_width s with
      | O => Fields_from rest 0 (String.append word (String c EmptyString))
      | S k => flush word ++ Fields_from rest k EmptyString
      end
    end
  end.

(** [strings.Fields]: the maximal runs of bytes between white space. *)
Definition Fields (s : string) : list string := Fields_from s 0 EmptyString.

(** [strings.HasSuffix] and [strings.TrimSuffix]. *)
Definition HasSuffix (s suffix : string) : bool :=
  (String.length suffix <=? String.length s)%nat
  && String.eqb (substring (String.length s - String.length suffix)
                           (String.length suffix) s) suffix.

Definition TrimSuffix (s suffix : string) : string :=
  if HasSuffix s suffix
  then substring 0 (String.length s - String.length suffix) s
  else s.

End strings.

Module strconv.

Inductive NumError := ErrSyntax | ErrRange.

Definition maxUint64 : Z := 2 ^ 64 - 1.

(** The smallest number such that [cutoff * 10] exceeds [maxUint64]. *)
Definition cutoff : Z := maxUint64 / 10 + 1.

Definition is_digit (c : ascii) : bool :=
  (48 <=? strings.code c) && (strings.code c <=? 57).

(** The digit loop of [strconv.ParseUint(s, 10, 64)]: it reads the bytes
    from the left and returns at the first byte that is no digit (value 0)
    or at the first digit that makes the number overflow (value
    [maxUint64]). [n * 10] cannot wrap below the cutoff; [n + d] is
    computed modulo [2^64] as the machine does. *)
Fixpoint ParseUint_digits (s : string) (n : Z) : Z * option NumError :=
  match s with
  | EmptyString => (n, None)
  | String c rest =>
    if is_digit c then
      let d := strings.code c - 48 in
      if cutoff <=? n then (maxUint64, Some ErrRange)
      else
        let n10 := n * 10 in
        let n1 := (n10 + d) mod 2 ^ 64 in
        if (n1 <? n10) || (maxUint64 <? n1) then (maxUint64, Some ErrRange)
        else ParseUint_digits rest n1
    else (0, Some ErrSyntax)
  end.

(** [strconv.ParseUint(s, 10, 64)]. *)
Definition ParseUint (s : string) : Z * option NumError :=
  match s with
  | EmptyString => (0, Some ErrSyntax)
  | _ => ParseUint_digits s 0
  end.

End strconv.

(** [makeUint64]: every element converted, the conversion error dropped. *)
Definition makeUint64 (fields : list string) : list Z :=
  fold_left (fun (elements : list Z) (element : string) =>
               let '(val, _) := strconv.ParseUint element in
               elements ++ [val]) fields [].

(** ** The input stream and [bufio.Scanner]

    What the scanner gets out of its [io.Reader], in order: the lines (the
    tokens of [bufio.ScanLines]) and, when reading fails, the read error at
    the place where the scanner meets it.  Lines that the scanner had already
    buffered when the read failed are still delivered after the error has
    been recorded, so lines may follow a [Fault].  Lines are taken to fit the
    scanner's buffer. *)

Definition error := string.

Inductive item :=
| Line (text : string)
| Fault (e : error).

Module bufio.

Record Scanner := {
  future : list item;     (* what is still to come *)
  token : string;         (* the line of the last successful Scan *)
  err : option error      (* the first read error met, nil if none *)
}.

Definition NewScanner (r : list item) : Scanner :=
  {| future := r; token := ""; err := None |}.

(** The scanner keeps the first error. *)
Definition setErr (old : option error) (e : error) : option error :=
  match old with
  | None => Some e
  | Some _ => old
  end.

Fixpoint Scan_from (items : list item) (err : option error) : bool * Scanner :=
  match items with
  | [] => (false, {| future := []; token := ""; err := err |})
  | Fault e :: rest => Scan_from rest (setErr err e)
  | Line text :: rest => (true, {| future := rest; token := text; err := err |})
  end.

(** [Scan]: advance to the next line; false at the end of the input. *)
Definition Scan (s : Scanner) : bool * Scanner := Scan_from (future s) (err s).

Definition Bytes (s : Scanner) : string := token s.

Definition Err (s : Scanner) : option error := err s.

End bufio.

(** ** The data model *)

Record ByteCounters := {
  NormalReadBytes : Z; NormalWriteBytes : Z; DirectReadBytes : Z; DirectWriteBytes : Z;
  ServerReadBytes : Z; ServerWriteBytes : Z; ReadPages : Z; WritePages : Z
}.

Record EventCounters := {
  InodeRevalidate : Z; DentryRevalidate : Z; DataInvalidate : Z; AttrInvalidate : Z;
  VFSOpen : Z; VFSLookup : Z; VFSAccess : Z; VFSUpdatePage : Z; VFSReadPage : Z;
  VFSReadPages : Z; VFSWritePage : Z; VFSWritePages : Z; VFSGetDents : Z; VFSSetAttr : Z;
  VFSFlush : Z; VFSSync : Z; VFSLock : Z; VFSRelease : Z; CongestionWait : Z;
  SetAttrTrunc : Z; ExtendWrite : Z; SillyRename : Z; ShortRead : Z; ShortWrite : Z;
  Delay : Z; PNFSRead : Z; PNFSWrite : Z
}.

Record OperationCounters := {
  Requests : Z; Transmissions : Z; Timeouts : Z; BytesSent : Z; BytesReceived : Z;
  TotalQueueTime : Z; TotalResponseTime : Z; TotalExecutionTime : Z
}.

Record TransportCounters := {
  SourcePort : Z; BindCount : Z; ConnectCount : Z; ConnectTime : Z; IdleTime : Z;
  RPCSends : Z; RPCReceives : Z; BadTransactionIDs : Z; RequestUtilization : Z;
  BacklogUtilization : Z; MaxSlotsUsed : Z; SendingQueueUtilization : Z;
  PendingQueueUtilization : Z
}.

(** [Operation] is a Go map: [None] is the nil map of the zero value. *)
Record Statistics := {
  Age : Z;
  Byte : ByteCounters;
  Event : EventCounters;
  Operation : option (gmap string OperationCounters);
  Transport : TransportCounters
}.

(** [NFSMount.Statistics] is a pointer: [None] is nil.  (The field is called
    [Statistics] in the source; the name is taken by the record here.) *)
Record NFSMount := {
  Device : string;
  Mountpoint : string;
  MountStatistics : option Statistics;
  Version : Z
}.

(** The zero values of the counter records. *)
Definition zeroByteCounters : ByteCounters := Build_ByteCounters 0 0 0 0 0 0 0 0.
Definition zeroEventCounters : EventCounters :=
  Build_EventCounters 0 0 0 0 0 0 0 0 0 0 0 0 0 0 0 0 0 0 0 0 0 0 0 0 0 0 0.
Definition zeroTransportCounters : TransportCounters :=
  Build_TransportCounters 0 0 0 0 0 0 0 0 0 0 0 0 0.

(** Assignments to the fields of a [Statistics]. *)
Definition set_Age (s : Statistics) (v : Z) : Statistics :=
  {| Age := v; Byte := Byte s; Event := Event s; Operation := Operation s;
     Transport := Transport s |}.
Definition set_Byte (s : Statistics) (v : ByteCounters) : Statistics :=
  {| Age := Age s; Byte := v; Event := Event s; Operation := Operation s;
     Transport := Transport s |}.
Definition set_Event (s : Statistics) (v : EventCounters) : Statistics :=
  {| Age := Age s; Byte := Byte s; Event := v; Operation := Operation s;
     Transport := Transport s |}.
Definition set_Operation (s : Statistics) (v : option (gmap string OperationCounters))
  : Statistics :=
  {| Age := Age s; Byte := Byte s; Event := Event s; Operation := v;
     Transport := Transport s |}.
Definition set_Transport (s : Statistics) (v : TransportCounters) : Statistics :=
  {| Age := Age s; Byte := Byte s; Event := Event s; Operation := Operation s;
     Transport := v |}.

(** [nfsMount.Statistics = statistics]. *)
Definition set_MountStatistics (m : NFSMount) (v : option Statistics) : NFSMount :=
  {| Device := Device m; Mountpoint := Mountpoint m; MountStatistics := v;
     Version := Version m |}.

(** [NewStatistics]: the zero value with an empty, allocated map. *)
Definition NewStatistics : Statistics :=
  set_Operation
    {| Age := 0; Byte := zeroByteCounters; Event := zeroEventCounters; Operation := None;
       Transport := zeroTransportCounters |}
    (Some ∅).

(** ** The composite literals: every [elements[i]] is a checked index *)

Definition ByteCounters_lit (elements : list Z) : outcome ByteCounters :=
  e0 ← index elements 0; e1 ← index elements 1; e2 ← index elements 2;
  e3 ← index elements 3; e4 ← index elements 4; e5 ← index elements 5;
  e6 ← index elements 6; e7 ← index elements 7;
  mret {| NormalReadBytes := e0; NormalWriteBytes := e1; DirectReadBytes := e2;
          DirectWriteBytes := e3; ServerReadBytes := e4; ServerWriteBytes := e5;
          ReadPages := e6; WritePages := e7 |}.

Definition EventCounters_lit (elements : list Z) : outcome EventCounters :=
  e0 ← index elements 0; e1 ← index elements 1; e2 ← index elements 2;
  e3 ← index elements 3; e4 ← index elements 4; e5 ← index elements 5;
  e6 ← index elements 6; e7 ← index elements 7; e8 ← index elements 8;
  e9 ← index elements 9; e10 ← index elements 10; e11 ← index elements 11;
  e12 ← index elements 12; e13 ← index elements 13; e14 ← index elements 14;
  e15 ← index elements 15; e16 ← index elements 16; e17 ← index elements 17;
  e18 ← index elements 18; e19 ← index elements 19; e20 ← index elements 20;
  e21 ← index elements 21; e22 ← index elements 22; e23 ← index elements 23;
  e24 ← index elements 24; e25 ← index elements 25; e26 ← index elements 26;
  mret {| InodeRevalidate := e0; DentryRevalidate := e1; DataInvalidate := e2;
          AttrInvalidate := e3; VFSOpen := e4; VFSLookup := e5; VFSAccess := e6;
          VFSUpdatePage := e7; VFSReadPage := e8; VFSReadPages := e9;
          VFSWritePage := e10; VFSWritePages := e11; VFSGetDents := e12;
          VFSSetAttr := e13; VFSFlush := e14; VFSSync := e15; VFSLock := e16;
          VFSRelease := e17; CongestionWait := e18; SetAttrTrunc := e19;
          ExtendWrite := e20; SillyRename := e21; ShortRead := e22; ShortWrite := e23;
          Delay := e24; PNFSRead := e25; PNFSWrite := e26 |}.

Definition TransportCounters_lit (elements : list Z) : outcome TransportCounters :=
  e0 ← index elements 0; e1 ← index elements 1; e2 ← index elements 2;
  e3 ← index elements 3; e4 ← index elements 4; e5 ← index elements 5;
  e6 ← index elements 6; e7 ← index elements 7; e8 ← index elements 8;
  e9 ← index elements 9; e10 ← index elements 10; e11 ← index elements 11;
  e12 ← index elements 12;
  mret {| SourcePort := e0; BindCount := e1; ConnectCount := e2; ConnectTime := e3;
          IdleTime := e4; RPCSends := e5; RPCReceives := e6; BadTransactionIDs := e7;
          RequestUtilization := e8; BacklogUtilization := e9; MaxSlotsUsed := e10;
          SendingQueueUtilization := e11; PendingQueueUtilization := e12 |}.

Definition OperationCounters_lit (elements : list Z) : outcome OperationCounters :=
  e0 ← index elements 0; e1 ← index elements 1; e2 ← index elements 2;
  e3 ← index elements 3; e4 ← index elements 4; e5 ← index elements 5;
  e6 ← index elements 6; e7 ← index elements 7;
  mret {| Requests := e0; Transmissions := e1; Timeouts := e2; BytesSent := e3;
          BytesReceived := e4; TotalQueueTime := e5; TotalResponseTime := e6;
          TotalExecutionTime := e7 |}.

(** ** The parser *)

Import bufio.

Definition len {A : Type} (s : list A) : nat := length s.

(** The [switch fields[0]] of [parseStatistics].  A [continue] inside a case
    and the end of a case both lead to the next round of the loop with the
    statistics as they are. *)
Definition statistics_switch (fields : list string) (statistics : Statistics)
  : outcome Statistics :=
  f0 ← index fields 0;
  if String.eqb f0 "age:" then
    f1 ← index fields 1;
    let '(val, _) := strconv.ParseUint f1 in
    mret (set_Age statistics val)
  else if String.eqb f0 "bytes:" then
    (* There must be 9 byte elements *)
    if negb (len fields =? 9)%nat then mret statistics else
    tail ← slice_from fields 1;
    let elements := makeUint64 tail in
    counters ← ByteCounters_lit elements;
    mret (set_Byte statistics counters)
  else if String.eqb f0 "events:" then
    (* There must be 28 event elements *)
    if negb (len fields =? 28)%nat then mret statistics else
    tail ← slice_from fields 1;
    let elements := makeUint64 tail in
    counters ← EventCounters_lit elements;
    mret (set_Event statistics counters)
  else if String.eqb f0 "xprt:" then
    (* We only parse it if the transport is TCP *)
    f1 ← index fields 1;
    if negb (String.eqb f1 "tcp") then mret statistics else
    (* There must be 15 transport elements *)
    if negb (len fields =? 15)%nat then mret statistics else
    tail ← slice_from fields 2;
    let elements := makeUint64 tail in
    counters ← TransportCounters_lit elements;
    mret (set_Transport statistics counters)
  else mret statistics.

(** The first loop of [parseStatistics]. *)
Fixpoint statistics_loop (fuel : nat) (scanner : Scanner) (statistics : Statistics)
  : outcome (Statistics * Scanner) :=
  match fuel with
  | O => Starved
  | S fuel =>
    let '(more, scanner) := Scan scanner in
    if negb more then mret (statistics, scanner) else
    (* Split each line on spaces *)
    let fields := strings.Fields (Bytes scanner) in
    (* The stats are done or we need to move on to per-operation stats *)
    if (len fields =? 0)%nat then mret (statistics, scanner) else
    f0 ← index fields 0;
    (* Bail if per-operation stats *)
    if String.eqb f0 "per-op" then mret (statistics, scanner) else
    statistics ← statistics_switch fields statistics;
    statistics_loop fuel scanner statistics
  end.

(** [statistics.Operation[opName] = counters]: panics on the nil map. *)
Definition assign_Operation (statistics : Statistics) (opName : string)
  (counters : OperationCounters) : outcome Statistics :=
  match Operation statistics with
  | None => Panic
  | Some m => mret (set_Operation statistics (Some (<[opName := counters]> m)))
  end.

(** [parseOperations]: the statistics are changed through the pointer, the
    changed record is handed back here. *)
Fixpoint parseOperations (fuel : nat) (scanner : Scanner) (statistics : Statistics)
  : outcome (Statistics * Scanner) :=
  match fuel with
  | O => Starved
  | S fuel =>
    let '(more, scanner) := Scan scanner in
    if negb more then mret (statistics, scanner) else
    let fields := strings.Fields (Bytes scanner) in
    (* Bail if the line is empty or a device line is encountered *)
    if (len fields =? 0)%nat then mret (statistics, scanner) else
    f0 ← index fields 0;
    if String.eqb f0 "device" then mret (statistics, scanner) else
    (* Skip malformed lines *)
    if negb (len fields =? 9)%nat then parseOperations fuel scanner statistics else
    (* Store the values *)
    let opName := strings.TrimSuffix f0 ":" in
    tail ← slice_from fields 1;
    let elements := makeUint64 tail in
    counters ← OperationCounters_lit elements;
    statistics ← assign_Operation statistics opName counters;
    parseOperations fuel scanner statistics
  end.

(** [parseStatistics] returns a pointer and an error, and leaves the scanner
    where the two loops stopped. *)
Definition parseStatistics (fuel : nat) (scanner : Scanner)
  : outcome (option Statistics * option error * Scanner) :=
  let statistics := NewStatistics in
  (* Extract each metric type *)
  '(statistics, scanner) ← statistics_loop fuel scanner statistics;
  (* Extract per-operation stats *)
  '(statistics, scanner) ← parseOperations fuel scanner statistics;
  match Err scanner with
  | Some e => mret (None, Some e, scanner)
  | None => mret (Some statistics, None, scanner)
  end.

(** The loop of [Parse]; a nil slice is the empty list. *)
Fixpoint Parse_loop (fuel : nat) (scanner : Scanner) (nfsMounts : list NFSMount)
  : outcome (list NFSMount * option error) :=
  match fuel with
  | O => Starved
  | S fuel =>
    let '(more, scanner) := Scan scanner in
    if negb more then mret (nfsMounts, Err scanner) else
    (* Split each line on spaces *)
    let fields := strings.Fields (Bytes scanner) in
    (* Skip empty lines *)
    if (len fields =? 0)%nat then Parse_loop fuel scanner nfsMounts else
    f0 ← index fields 0;
    if String.eqb f0 "device" then
      (* Skip mounts that are not NFS and not version 1.1 *)
      if negb (len fields =? 9)%nat then Parse_loop fuel scanner nfsMounts else
      f7 ← index fields 7;
      if negb (String.eqb f7 "nfs") && negb (String.eqb f7 "nfs4")
      then Parse_loop fuel scanner nfsMounts else
      f8 ← index fields 8;
      if negb (String.eqb f8 "statvers=1.1") then Parse_loop fuel scanner nfsMounts else
      (* Determine NFS version (8th element) *)
      let nfsVersion := if String.eqb f7 "nfs4" then 4 else 3 in
      (* Save the basic mount info *)
      f1 ← index fields 1;
      f4 ← index fields 4;
      let nfsMount := {| Device := f1; Mountpoint := f4; MountStatistics := None;
                         Version := nfsVersion |} in
      (* Capture statistics *)
      '(statistics, err, scanner) ← parseStatistics fuel scanner;
      match err with
      | Some e => mret ([], Some e)
      | None =>
        let nfsMount := set_MountStatistics nfsMount statistics in
        (* Add it to the pile *)
        Parse_loop fuel scanner (nfsMounts ++ [nfsMount])
      end
    else Parse_loop fuel scanner nfsMounts
  end.

(** [Parse]: the fuel exceeds the number of items of the input. *)
Definition Parse (reader : list item) : outcome (list NFSMount * option error) :=
  Parse_loop (S (length reader)) (NewScanner reader) [].

(** ** Vocabulary of the statements

    The tests the three loops make on a line, named, and the format the
    documentation describes. *)

(** The token at a position ([""] when the line is shorter). *)
Definition tok (fields : list string) (i : nat) : string := nth i fields "".

(** A mount header, in the words of the documentation: exactly 9 tokens,
    token 0 is [device], token 7 is [nfs] or [nfs4], token 8 is
    [statvers=1.1]. *)
Definition is_header (fields : list string) : bool :=
  (length fields =? 9)%nat
  && String.eqb (tok fields 0) "device"
  && (String.eqb (tok fields 7) "nfs" || String.eqb (tok fields 7) "nfs4")
  && String.eqb (tok fields 8) "statvers=1.1".

(** The record a header stands for: version 4 for [nfs4] and 3 otherwise,
    device token 1, mount point token 4. *)
Definition header_mount (fields : list string) (statistics : option Statistics)
  : NFSMount :=
  {| Device := tok fields 1;
     Mountpoint := tok fields 4;
     MountStatistics := statistics;
     Version := if String.eqb (tok fields 7) "nfs4" then 4 else 3 |}.

Definition count_headers (lines : list string) : nat :=
  length (filter (fun text => is_header (strings.Fields text) = true) lines).

(** The two [break] tests. *)
Definition ends_statistics (fields : list string) : bool :=
  match fields with
  | [] => true
  | f0 :: _ => String.eqb f0 "per-op"
  end.

Definition ends_operations (fields : list string) : bool :=
  match fields with
  | [] => true
  | f0 :: _ => String.eqb f0 "device"
  end.

(** The body of the loop of [parseOperations] below its [break]. *)
Definition operations_step (fields : list string) (statistics : Statistics)
  : outcome Statistics :=
  f0 ← index fields 0;
  if negb (len fields =? 9)%nat then mret statistics else
  let opName := strings.TrimSuffix f0 ":" in
  tail ← slice_from fields 1;
  let elements := makeUint64 tail in
  counters ← OperationCounters_lit elements;
  assign_Operation statistics opName counters.

(** The lines of a block, one after the other. *)
Fixpoint statistics_block (lines : list string) (statistics : Statistics)
  : outcome Statistics :=
  match lines with
  | [] => mret statistics
  | text :: rest =>
    statistics ← statistics_switch (strings.Fields text) statistics;
    statistics_block rest statistics
  end.

Fixpoint operations_table (lines : list string) (statistics : Statistics)
  : outcome Statistics :=
  match lines with
  | [] => mret statistics
  | text :: rest =>
    statistics ← operations_step (strings.Fields text) statistics;
    operations_table rest statistics
  end.

(** What a numeric token stands for. *)
Fixpoint all_digits (s : string) : bool :=
  match s with
  | EmptyString => true
  | String c rest => strconv.is_digit c && all_digits rest
  end.

Fixpoint leading_digits (s : string) : string :=
  match s with
  | EmptyString => EmptyString
  | String c rest => if strconv.is_digit c then String c (leading_digits rest) else EmptyString
  end.

(** The number a string of digits denotes, continuing from [n]. *)
Fixpoint decimal_from (s : string) (n : Z) : Z :=
  match s with
  | EmptyString => n
  | String c rest => decimal_from rest (n * 10 + (strings.code c - 48))
  end.

Definition decimal (s : string) : Z := decimal_from s 0.

(** A valid token: a non-empty string of digits that denotes a 64-bit value. *)
Definition valid_uint64 (s : string) : bool :=
  negb (String.eqb s "") && all_digits s && (decimal s <=? strconv.maxUint64).

(** The value a counter gets from its token: the number a valid token
    denotes; for any other token zero, unless its leading digits already
    exceed 64 bits, where it is the largest 64-bit value. *)
Definition token_value (s : string) : Z :=
  if valid_uint64 s then decimal s
  else if strconv.maxUint64 <? decimal (leading_digits s) then strconv.maxUint64
  else 0.

(** The counter records read off a line, position by position. *)
Definition byte_counters (fields : list string) : ByteCounters :=
  let v i := token_value (tok fields i) in
  Build_ByteCounters (v 1%nat) (v 2%nat) (v 3%nat) (v 4%nat) (v 5%nat) (v 6%nat)
                     (v 7%nat) (v 8%nat).

Definition operation_counters (fields : list string) : OperationCounters :=
  let v i := token_value (tok fields i) in
  Build_OperationCounters (v 1%nat) (v 2%nat) (v 3%nat) (v 4%nat) (v 5%nat) (v 6%nat)
                          (v 7%nat) (v 8%nat).

Definition transport_counters (fields : list string) : TransportCounters :=
  let v i := token_value (tok fields i) in
  Build_TransportCounters (v 2%nat) (v 3%nat) (v 4%nat) (v 5%nat) (v 6%nat) (v 7%nat)
                          (v 8%nat) (v 9%nat) (v 10%nat) (v 11%nat) (v 12%nat)
                          (v 13%nat) (v 14%nat).

Definition event_counters (fields : list string) : EventCounters :=
  let v i := token_value (tok fields i) in
  Build_EventCounters (v 1%nat) (v 2%nat) (v 3%nat) (v 4%nat) (v 5%nat) (v 6%nat)
                      (v 7%nat) (v 8%nat) (v 9%nat) (v 10%nat) (v 11%nat) (v 12%nat)
                      (v 13%nat) (v 14%nat) (v 15%nat) (v 16%nat) (v 17%nat) (v 18%nat)
                      (v 19%nat) (v 20%nat) (v 21%nat) (v 22%nat) (v 23%nat) (v 24%nat)
                      (v 25%nat) (v 26%nat) (v 27%nat).

(** The name under which an operation line is stored. *)
Definition operation_name (fields : list string) : string :=
  strings.TrimSuffix (tok fields 0) ":".

(** *** The format [statvers=1.1]

    A file is a sequence of entries.  The entry of an NFS mount is its header
    line, the lines of its statistics, the [per-op statistics] line, one line
    per operation and a blank line; any other line that is no header (the
    one-line entries of other file systems) stands alone. *)

(** A line inside a statistics block: it has a first token, which is not
    [per-op], and an [age:] or [xprt:] line carries at least one more token. *)
Definition block_line (text : string) : bool :=
  let fields := strings.Fields text in
  negb (ends_statistics fields)
  && (if String.eqb (tok fields 0) "age:" || String.eqb (tok fields 0) "xprt:"
      then (2 <=? length fields)%nat else true).

(** A line of the statistics of an entry: a block line that is no header. *)
Definition statistics_line (text : string) : bool :=
  block_line text && negb (is_header (strings.Fields text)).

Definition per_op_line (text : string) : bool :=
  match strings.Fields text with
  | [] => false
  | f0 :: _ => String.eqb f0 "per-op"
  end.

Definition operation_line (text : string) : bool :=
  negb (ends_operations (strings.Fields text)).

Definition blank_line (text : string) : bool :=
  match strings.Fields text with
  | [] => true
  | _ => false
  end.

Inductive complete_entries : list string -> Prop :=
| entries_end : complete_entries []
| entries_other text rest :
    is_header (strings.Fields text) = false ->
    complete_entries rest ->
    complete_entries (text :: rest)
| entries_mount header stats perop ops blank rest :
    is_header (strings.Fields header) = true ->
    forallb statistics_line stats = true ->
    per_op_line perop = true ->
    forallb operation_line ops = true ->
    blank_line blank = true ->
    complete_entries rest ->
    complete_entries (header :: stats ++ perop :: ops ++ blank :: rest).

(** The input may stop inside its last entry: in the statistics or in the
    table of operations. *)
Inductive last_entry : list string -> Prop :=
| last_none : last_entry []
| last_statistics header stats :
    is_header (strings.Fields header) = true ->
    forallb statistics_line stats = true ->
    last_entry (header :: stats)
| last_table header stats perop ops :
    is_header (strings.Fields header) = true ->
    forallb statistics_line stats = true ->
    per_op_line perop = true ->
    forallb operation_line ops = true ->
    last_entry (header :: stats ++ perop :: ops).

Definition well_formed (lines : list string) : Prop :=
  exists entries last,
    lines = entries ++ last /\ complete_entries entries /\ last_entry last.

(** *** What a line does, in the words of the documentation

    [age:] sets the age from token 1; [bytes:] needs 9 tokens, [events:] 28,
    [xprt:] the transport [tcp] and 15 tokens, and then sets its record from
    the tokens in order; a line that does not fit is ignored.  An [age:] or
    [xprt:] line without token 1 is where the code indexes out of range. *)
Definition line_effect (fields : list string) (statistics : Statistics)
  : outcome Statistics :=
  match fields with
  | [] => Panic
  | f0 :: _ =>
    if String.eqb f0 "age:" then
      if (2 <=? length fields)%nat
      then Ret (set_Age statistics (token_value (tok fields 1)))
      else Panic
    else if String.eqb f0 "bytes:" then
      if (length fields =? 9)%nat
      then Ret (set_Byte statistics (byte_counters fields))
      else Ret statistics
    else if String.eqb f0 "events:" then
      if (length fields =? 28)%nat
      then Ret (set_Event statistics (event_counters fields))
      else Ret statistics
    else if String.eqb f0 "xprt:" then
      if (2 <=? length fields)%nat then
        if String.eqb (tok fields 1) "tcp" && (length fields =? 15)%nat
        then Ret (set_Transport statistics (transport_counters fields))
        else Ret statistics
      else Panic
    else Ret statistics
  end.

(** An operation line of 9 tokens stores its counters under its name, any
    other line of the table is skipped. *)
Definition operation_effect (fields : list string) (statistics : Statistics)
  : outcome Statistics :=
  match fields with
  | [] => Panic
  | _ :: _ =>
    if (length fields =? 9)%nat
    then assign_Operation statistics (operation_name fields) (operation_counters fields)
    else Ret statistics
  end.

(** The end of a block: the end of the input or a line that stops the loop. *)
Definition closes_statistics (tail : list string) : bool :=
  match tail with
  | [] => true
  | text :: _ => ends_statistics (strings.Fields text)
  end.

Definition closes_operations (tail : list string) : bool :=
  match tail with
  | [] => true
  | text :: _ => ends_operations (strings.Fields text)
  end.

(** What every returned mount satisfies: its statistics pointer is not nil,
    the operation map of the statistics is allocated, the version is 3 or 4. *)
Definition mount_ok (m : NFSMount) : Prop :=
  (exists st ops, MountStatistics m = Some st /\ Operation st = Some ops)
  /\ (Version m = 3 \/ Version m = 4).

(** ** Sample inputs *)

(** The end-to-end example of the documentation. *)
Definition example_lines : list string :=
  [ "device 192.168.1.1:/export mounted on /mnt with fstype nfs statvers=1.1";
    "age: 12345";
    "bytes: 1 2 3 4 5 6 7 8";
    "events: 0 0 0 0 0 0 0 0 0 0 0 0 0 0 0 0 0 0 0 0 0 0 0 0 0 0 0";
    "xprt: tcp 800 1 1 0 0 10 10 0 0 0 1 0";
    "READ: 10 10 0 100 200 1 2 3" ].

Definition header_a : string :=
  "device server:/a mounted on /a with fstype nfs statvers=1.1".

Definition header_b : string :=
  "device server:/b mounted on /b with fstype nfs4 statvers=1.1".

(** A header that follows a per-operation table without a blank line. *)
Definition adjacent_mounts : list item :=
  [ Line header_a;
    Line "per-op statistics";
    Line "READ: 1 2 3 4 5 6 7 8";
    Line header_b ].

(** One complete entry. *)
Definition entry_a : list string :=
  [ header_a;
    "age: 7";
    "per-op statistics";
    "READ: 1 2 3 4 5 6 7 8";
    "" ].

(** A file in the format: a local file system, two NFS mounts. *)
Definition sample_file : list string :=
  "device /dev/sda1 mounted on / with fstype ext4"
  :: entry_a
  ++ [ header_b;
       "opts: rw,vers=4.1";
       "age: 12";
       "bytes: 1 2 3 4 5 6 7 8";
       "xprt: tcp 800 1 1 0 0 10 10 0 0 0 1 0 0";
       "per-op statistics";
       "NULL: 0 0 0 0 0 0 0 0";
       "READ: 10 10 0 100 200 1 2 3";
       "" ].

(** The record of [entry_a]. *)
Definition mount_a : NFSMount :=
  {| Device := "server:/a"; Mountpoint := "/a";
     MountStatistics :=
       Some (set_Operation (set_Age NewStatistics 7)
               (Some (<["READ" := Build_OperationCounters 1 2 3 4 5 6 7 8]> ∅)));
     Version := 3 |}.

(** The first mount is complete; the read fails right after the header of
    the second. *)
Definition interrupted_second_mount : list item :=
  map Line entry_a ++ [Line header_b; Fault "read error"].

(** A counter that does not fit 64 bits. *)
Definition overflowing_bytes : list item :=
  [ Line header_a; Line "bytes: 18446744073709551616 2 3 4 5 6 7 8" ].

(** ** Measures of the proofs *)

(** The number of items the scanner has still to deliver. *)
Definition remaining (s : Scanner) : nat := length (future s).

(** An outcome other than the exhaustion of the fuel. *)
Definition finished {A : Type} (o : outcome A) : Prop := o <> Starved.

(** ** Vocabulary of the further properties *)

(** The lines of an input, and its first read error. *)
Fixpoint lines_of (items : list item) : list string :=
  match items with
  | [] => []
  | Line text :: rest => text :: lines_of rest
  | Fault _ :: rest => lines_of rest
  end.

Fixpoint first_fault (items : list item) : option error :=
  match items with
  | [] => None
  | Line _ :: rest => first_fault rest
  | Fault e :: _ => Some e
  end.

(** The error a scanner reports once its input is used up: the one it has
    recorded, or else the first one still to come. *)
Definition pending (s : Scanner) : option error :=
  match err s with
  | Some e => Some e
  | None => first_fault (future s)
  end.

(** A line whose [fields[1]] exists where the switch of [parseStatistics]
    reads it: an [age:] or [xprt:] line has a second token. *)
Definition indexable (text : string) : bool :=
  let fields := strings.Fields text in
  if String.eqb (tok fields 0) "age:" || String.eqb (tok fields 0) "xprt:"
  then (2 <=? length fields)%nat else true.

(** The header lines among some lines, in order. *)
Definition headers (lines : list string) : list string :=
  filter (fun text => is_header (strings.Fields text) = true) lines.

(** What a record says about its mount, and what a header line says. *)
Definition mount_key (m : NFSMount) : string * string * Z :=
  (Device m, Mountpoint m, Version m).

Definition header_key (text : string) : string * string * Z :=
  mount_key (header_mount (strings.Fields text) None).

(** The range of a [uint64]. *)
Definition in_range (z : Z) : Prop := 0 <= z <= strconv.maxUint64.

Definition byte_values (c : ByteCounters) : list Z :=
  [ NormalReadBytes c; NormalWriteBytes c; DirectReadBytes c; DirectWriteBytes c;
    ServerReadBytes c; ServerWriteBytes c; ReadPages c; WritePages c ].

Definition event_values (c : EventCounters) : list Z :=
  [ InodeRevalidate c; DentryRevalidate c; DataInvalidate c; AttrInvalidate c;
    VFSOpen c; VFSLookup c; VFSAccess c; VFSUpdatePage c; VFSReadPage c;
    VFSReadPages c; VFSWritePage c; VFSWritePages c; VFSGetDents c; VFSSetAttr c;
    VFSFlush c; VFSSync c; VFSLock c; VFSRelease c; CongestionWait c;
    SetAttrTrunc c; ExtendWrite c; SillyRename c; ShortRead c; ShortWrite c;
    Delay c; PNFSRead c; PNFSWrite c ].

Definition operation_values (c : OperationCounters) : list Z :=
  [ Requests c; Transmissions c; Timeouts c; BytesSent c; BytesReceived c;
    TotalQueueTime c; TotalResponseTime c; TotalExecutionTime c ].

Definition transport_values (c : TransportCounters) : list Z :=
  [ SourcePort c; BindCount c; ConnectCount c; ConnectTime c; IdleTime c;
    RPCSends c; RPCReceives c; BadTransactionIDs c; RequestUtilization c;
    BacklogUtilization c; MaxSlotsUsed c; SendingQueueUtilization c;
    PendingQueueUtilization c ].

(** Every number of a [Statistics] is a [uint64]. *)
Definition statistics_in_range (st : Statistics) : Prop :=
  in_range (Age st)
  /\ Forall in_range (byte_values (Byte st))
  /\ Forall in_range (event_values (Event st))
  /\ Forall in_range (transport_values (Transport st))
  /\ forall ops, Operation st = Some ops ->
       map_Forall (fun _ c => Forall in_range (operation_values c)) ops.

Definition mount_in_range (m : NFSMount) : Prop :=
  forall st, MountStatistics m = Some st -> statistics_in_range st.

(** The operation entries of a record come from lines: an entry under [name]
    with counters [c] has a 9-token line of that name and those counters among
    [lines]. *)
Definition entry_from (lines : list string) (name : string) (c : OperationCounters)
  : Prop :=
  exists text,
    text ∈ lines
    /\ length (strings.Fields text) = 9%nat
    /\ operation_name (strings.Fields text) = name
    /\ operation_counters (strings.Fields text) = c.

Definition operations_from (lines : list string) (m : NFSMount) : Prop :=
  forall st ops name c,
    MountStatistics m = Some st -> Operation st = Some ops ->
    ops !! name = Some c -> entry_from lines name c.

(** What a line of a statistics block sets, if anything. *)
Definition sets_Age (fields : list string) : option Z :=
  if String.eqb (tok fields 0) "age:" then Some (token_value (tok fields 1)) else None.

Definition sets_Byte (fields : list string) : option ByteCounters :=
  if String.eqb (tok fields 0) "bytes:" && (length fields =? 9)%nat
  then Some (byte_counters fields) else None.

Definition sets_Event (fields : list string) : option EventCounters :=
  if String.eqb (tok fields 0) "events:" && (length fields =? 28)%nat
  then Some (event_counters fields) else None.

Definition sets_Transport (fields : list string) : option TransportCounters :=
  if String.eqb (tok fields 0) "xprt:" && String.eqb (tok fields 1) "tcp"
     && (length fields =? 15)%nat
  then Some (transport_counters fields) else None.

(** The statistics of [mount_a]. *)
Definition mount_a_statistics : Statistics :=
  set_Operation (set_Age NewStatistics 7)
    (Some (<["READ" := Build_OperationCounters 1 2 3 4 5 6 7 8]> ∅)).

(** * Proofs *)

(** ** The library functions on examples *)

Example Fields_header :
  strings.Fields "device 192.168.1.1:/export mounted on /mnt with fstype nfs statvers=1.1"
  = ["device"; "192.168.1.1:/export"; "mounted"; "on"; "/mnt"; "with"; "fstype"; "nfs";
     "statvers=1.1"].
Proof. reflexivity. Qed.

Example Fields_tabs : strings.Fields (String "009" (String.append " age:  " (String "009" "12345 "))) = ["age:"; "12345"].
Proof. reflexivity. Qed.

Example ParseUint_max : strconv.ParseUint "18446744073709551615" = (2 ^ 64 - 1, None).
Proof. reflexivity. Qed.

Example ParseUint_over : strconv.ParseUint "18446744073709551616" = (2 ^ 64 - 1, Some strconv.ErrRange).
Proof. reflexivity. Qed.

Example ParseUint_bad : strconv.ParseUint "12x" = (0, Some strconv.ErrSyntax).
Proof. reflexivity. Qed.

(** The digits are read from the left: the overflow is met before the [x]. *)
Example ParseUint_over_then_bad :
  strconv.ParseUint "99999999999999999999x" = (2 ^ 64 - 1, Some strconv.ErrRange)
  /\ strconv.ParseUint "x99999999999999999999" = (0, Some strconv.ErrSyntax)
  /\ strconv.ParseUint "+5" = (0, Some strconv.ErrSyntax)
  /\ strconv.ParseUint "" = (0, Some strconv.ErrSyntax).
Proof. repeat split; reflexivity. Qed.

(** A read error is recorded by the call that meets it; the lines still
    buffered are delivered after it. *)
Example Scan_meets_fault :
  Scan (NewScanner [Fault "EIO"; Line "tail"])
  = (true, {| future := []; token := "tail"; err := Some "EIO" |})
  /\ Scan (NewScanner [Fault "EIO"])
     = (false, {| future := []; token := ""; err := Some "EIO" |}).
Proof. split; reflexivity. Qed.

Example TrimSuffix_colon : strings.TrimSuffix "READ:" ":" = "READ" /\ strings.TrimSuffix "READ" ":" = "READ".
Proof. split; reflexivity. Qed.

Example Fields_no_break_space :
  strings.Fields (String.append "a" (String "194" (String "160" "b"))) = ["a"; "b"].
Proof. reflexivity. Qed.

(** The example of the documentation: one record of version 3 with the age
    and the byte counters of the block.  No [per-op] line comes before the
    [READ:] line, so it is read as a line of the statistics block and the
    table of operations stays empty; the [xprt:] line has 14 tokens and sets
    nothing. *)
Example Parse_example_lines :
  Parse (map Line example_lines)
  = Ret ([ {| Device := "192.168.1.1:/export"; Mountpoint := "/mnt";
              MountStatistics :=
                Some (set_Byte (set_Age NewStatistics 12345)
                        (Build_ByteCounters 1 2 3 4 5 6 7 8));
              Version := 3 |} ], None).
Proof. vm_compute. reflexivity. Qed.

(** ** The scanner *)

Lemma Scan_from_true items e s :
  Scan_from items e = (true, s) -> (length (future s) < length items)%nat.
Proof.
  revert e. induction items as [|[text|x] rest IH]; intros e H; simpl in H.
  - discriminate.
  - injection H as <-. simpl. lia.
  - apply IH in H. simpl. lia.
Qed.

Lemma Scan_from_false items e s :
  Scan_from items e = (false, s) -> future s = [].
Proof.
  revert e. induction items as [|[text|x] rest IH]; intros e H; simpl in H.
  - by injection H as <-.
  - discriminate.
  - eauto.
Qed.

Lemma Scan_true s s' : Scan s = (true, s') -> (remaining s' < remaining s)%nat.
Proof. apply Scan_from_true. Qed.

Lemma Scan_false s s' : Scan s = (false, s') -> remaining s' = 0%nat.
Proof. intros H. unfold remaining. by rewrite (Scan_from_false _ _ _ H). Qed.

(** ** Fuel: the loops stop before it runs out, and more of it changes
    nothing *)

#[local] Arguments Scan : simpl never.

Ltac scan_cases s H :=
  destruct (Scan s) as [[|] ?] eqn:H; simpl.

Lemma statistics_loop_remaining fuel s st st' s' :
  statistics_loop fuel s st = Ret (st', s') -> (remaining s' <= remaining s)%nat.
Proof.
  revert s st. induction fuel as [|fuel IH]; intros s st; [discriminate|].
  simpl. scan_cases s Hs; intros H.
  - apply Scan_true in Hs.
    destruct (len _ =? 0)%nat; [injection H as <- <-; lia|].
    destruct (index _ 0) as [f0| |]; simpl in H; try discriminate.
    destruct (String.eqb f0 "per-op"); [injection H as <- <-; lia|].
    destruct (statistics_switch _ st) as [st1| |]; simpl in H; try discriminate.
    apply IH in H. lia.
  - apply Scan_false in Hs. injection H as <- <-. lia.
Qed.

Lemma parseOperations_remaining fuel s st st' s' :
  parseOperations fuel s st = Ret (st', s') -> (remaining s' <= remaining s)%nat.
Proof.
  revert s st. induction fuel as [|fuel IH]; intros s st; [discriminate|].
  simpl. scan_cases s Hs; intros H.
  - apply Scan_true in Hs.
    destruct (len _ =? 0)%nat; [injection H as <- <-; lia|].
    destruct (index _ 0) as [f0| |]; simpl in H; try discriminate.
    destruct (String.eqb f0 "device"); [injection H as <- <-; lia|].
    destruct (negb _); [apply IH in H; lia|].
    destruct (slice_from _ 1) as [tl| |]; simpl in H; try discriminate.
    destruct (OperationCounters_lit _) as [c| |]; simpl in H; try discriminate.
    destruct (assign_Operation _ _ _) as [st1| |]; simpl in H; try discriminate.
    apply IH in H. lia.
  - apply Scan_false in Hs. injection H as <- <-. lia.
Qed.

Lemma parseStatistics_remaining fuel s r e s' :
  parseStatistics fuel s = Ret (r, e, s') -> (remaining s' <= remaining s)%nat.
Proof.
  unfold parseStatistics. intros H.
  destruct (statistics_loop fuel s NewStatistics) as [[st1 s1]| |] eqn:H1;
    simpl in H; try discriminate.
  destruct (parseOperations fuel s1 st1) as [[st2 s2]| |] eqn:H2;
    simpl in H; try discriminate.
  apply statistics_loop_remaining in H1. apply parseOperations_remaining in H2.
  destruct (Err s2); injection H as _ _ <-; lia.
Qed.

Lemma statistics_loop_fuel fuel1 fuel2 s st :
  (remaining s < fuel1)%nat -> (remaining s < fuel2)%nat ->
  statistics_loop fuel1 s st = statistics_loop fuel2 s st.
Proof.
  revert fuel2 s st.
  induction fuel1 as [|fuel1 IH]; intros [|fuel2] s st H1 H2; try lia.
  simpl. scan_cases s Hs; [|done].
  apply Scan_true in Hs.
  destruct (len _ =? 0)%nat; [done|].
  destruct (index _ 0) as [f0| |]; simpl; try done.
  destruct (String.eqb f0 "per-op"); [done|].
  destruct (statistics_switch _ st) as [st1| |]; simpl; try done.
  apply IH; lia.
Qed.

Lemma parseOperations_fuel fuel1 fuel2 s st :
  (remaining s < fuel1)%nat -> (remaining s < fuel2)%nat ->
  parseOperations fuel1 s st = parseOperations fuel2 s st.
Proof.
  revert fuel2 s st.
  induction fuel1 as [|fuel1 IH]; intros [|fuel2] s st H1 H2; try lia.
  simpl. scan_cases s Hs; [|done].
  apply Scan_true in Hs.
  destruct (len _ =? 0)%nat; [done|].
  destruct (index _ 0) as [f0| |]; simpl; try done.
  destruct (String.eqb f0 "device"); [done|].
  destruct (negb _); [apply IH; lia|].
  destruct (slice_from _ 1) as [tl| |]; simpl; try done.
  destruct (OperationCounters_lit _) as [c| |]; simpl; try done.
  destruct (assign_Operation _ _ _) as [st1| |]; simpl; try done.
  apply IH; lia.
Qed.

Lemma parseStatistics_fuel fuel1 fuel2 s :
  (remaining s < fuel1)%nat -> (remaining s < fuel2)%nat ->
  parseStatistics fuel1 s = parseStatistics fuel2 s.
Proof.
  intros H1 H2. unfold parseStatistics.
  rewrite (statistics_loop_fuel fuel1 fuel2) by done.
  destruct (statistics_loop fuel2 s NewStatistics) as [[st1 s1]| |] eqn:E; simpl; try done.
  apply statistics_loop_remaining in E.
  rewrite (parseOperations_fuel fuel1 fuel2) by lia. done.
Qed.

Lemma Parse_loop_fuel fuel1 fuel2 s acc :
  (remaining s < fuel1)%nat -> (remaining s < fuel2)%nat ->
  Parse_loop fuel1 s acc = Parse_loop fuel2 s acc.
Proof.
  revert fuel2 s acc.
  induction fuel1 as [|fuel1 IH]; intros [|fuel2] s acc H1 H2; try lia.
  simpl. scan_cases s Hs; [|done].
  apply Scan_true in Hs.
  destruct (len _ =? 0)%nat; [apply IH; lia|].
  destruct (index _ 0) as [f0| |]; simpl; try done.
  destruct (String.eqb f0 "device"); [|apply IH; lia].
  destruct (negb _); [apply IH; lia|].
  destruct (index _ 7) as [f7| |]; simpl; try done.
  destruct (negb _ && negb _); [apply IH; lia|].
  destruct (index _ 8) as [f8| |]; simpl; try done.
  destruct (negb _); [apply IH; lia|].
  destruct (index _ 1) as [f1| |]; simpl; try done.
  destruct (index _ 4) as [f4| |]; simpl; try done.
  rewrite (parseStatistics_fuel fuel1 fuel2) by lia.
  destruct (parseStatistics fuel2 s0) as [[[r e] s1]| |] eqn:E; simpl; try done.
  apply parseStatistics_remaining in E.
  destruct e; [done|]. apply IH; lia.
Qed.

(** The loops never look at the token of the scanner they are given. *)
Lemma statistics_loop_token fuel items t1 t2 e st :
  statistics_loop fuel (Build_Scanner items t1 e) st
  = statistics_loop fuel (Build_Scanner items t2 e) st.
Proof. by destruct fuel. Qed.

Lemma parseOperations_token fuel items t1 t2 e st :
  parseOperations fuel (Build_Scanner items t1 e) st
  = parseOperations fuel (Build_Scanner items t2 e) st.
Proof. by destruct fuel. Qed.

Lemma Parse_loop_token fuel items t1 t2 e acc :
  Parse_loop fuel (Build_Scanner items t1 e) acc
  = Parse_loop fuel (Build_Scanner items t2 e) acc.
Proof. by destruct fuel. Qed.

Lemma parseStatistics_token fuel items t1 t2 e :
  parseStatistics fuel (Build_Scanner items t1 e)
  = parseStatistics fuel (Build_Scanner items t2 e).
Proof. unfold parseStatistics. by rewrite (statistics_loop_token _ _ t1 t2). Qed.

(** A recorded fault only sets the error. *)
Lemma statistics_loop_Fault fuel x rest t e st :
  statistics_loop fuel (Build_Scanner (Fault x :: rest) t e) st
  = statistics_loop fuel (Build_Scanner rest t (setErr e x)) st.
Proof. by destruct fuel. Qed.

Lemma parseOperations_Fault fuel x rest t e st :
  parseOperations fuel (Build_Scanner (Fault x :: rest) t e) st
  = parseOperations fuel (Build_Scanner rest t (setErr e x)) st.
Proof. by destruct fuel. Qed.

Lemma Parse_loop_Fault fuel x rest t e acc :
  Parse_loop fuel (Build_Scanner (Fault x :: rest) t e) acc
  = Parse_loop fuel (Build_Scanner rest t (setErr e x)) acc.
Proof. by destruct fuel. Qed.

(** ** Outcomes *)

Lemma finished_bind {A B : Type} (m : outcome A) (k : A -> outcome B) :
  finished m -> (forall a, finished (k a)) -> finished (m ≫= k).
Proof. destruct m; simpl; unfold finished; auto. Qed.

Lemma finished_index {A : Type} (s : list A) i : finished (index s i).
Proof. unfold index, finished. by destruct (s !! i). Qed.

Lemma finished_slice {A : Type} (s : list A) i : finished (slice_from s i).
Proof. unfold slice_from, finished. by destruct (_ <=? _)%nat. Qed.

Ltac finish :=
  repeat first
    [ apply finished_bind; [first [apply finished_index | apply finished_slice]|intros ?]
    | discriminate
    | match goal with
      | |- finished (if ?b then _ else _) => destruct b
      | |- finished (let '(_, _) := ?p in _) => destruct p
      | |- finished (mret _) => discriminate
      | |- finished (Ret _) => discriminate
      | |- finished Panic => discriminate
      end ].

Lemma finished_ByteCounters_lit l : finished (ByteCounters_lit l).
Proof. unfold ByteCounters_lit. finish. Qed.

Lemma finished_EventCounters_lit l : finished (EventCounters_lit l).
Proof. unfold EventCounters_lit. finish. Qed.

Lemma finished_TransportCounters_lit l : finished (TransportCounters_lit l).
Proof. unfold TransportCounters_lit. finish. Qed.

Lemma finished_OperationCounters_lit l : finished (OperationCounters_lit l).
Proof. unfold OperationCounters_lit. finish. Qed.

Lemma finished_statistics_switch fields st : finished (statistics_switch fields st).
Proof.
  unfold statistics_switch. finish;
    (apply finished_bind;
     [first [apply finished_ByteCounters_lit | apply finished_EventCounters_lit
            | apply finished_TransportCounters_lit]|intros ?; discriminate]).
Qed.

Lemma finished_assign_Operation st name c : finished (assign_Operation st name c).
Proof. unfold assign_Operation. by destruct (Operation st). Qed.

Lemma statistics_loop_finished fuel s st :
  (remaining s < fuel)%nat -> finished (statistics_loop fuel s st).
Proof.
  revert s st. induction fuel as [|fuel IH]; intros s st H; [lia|].
  simpl. scan_cases s Hs; [|discriminate].
  apply Scan_true in Hs.
  destruct (len _ =? 0)%nat; [discriminate|].
  apply finished_bind; [apply finished_index|intros f0].
  destruct (String.eqb f0 "per-op"); [discriminate|].
  apply finished_bind; [apply finished_statistics_switch|intros st1].
  apply IH. lia.
Qed.

Lemma parseOperations_finished fuel s st :
  (remaining s < fuel)%nat -> finished (parseOperations fuel s st).
Proof.
  revert s st. induction fuel as [|fuel IH]; intros s st H; [lia|].
  simpl. scan_cases s Hs; [|discriminate].
  apply Scan_true in Hs.
  destruct (len _ =? 0)%nat; [discriminate|].
  apply finished_bind; [apply finished_index|intros f0].
  destruct (String.eqb f0 "device"); [discriminate|].
  destruct (negb _); [apply IH; lia|].
  apply finished_bind; [apply finished_slice|intros tl].
  apply finished_bind; [apply finished_OperationCounters_lit|intros c].
  apply finished_bind; [apply finished_assign_Operation|intros st1].
  apply IH. lia.
Qed.

Lemma parseStatistics_finished fuel s :
  (remaining s < fuel)%nat -> finished (parseStatistics fuel s).
Proof.
  intros H. unfold parseStatistics.
  pose proof (statistics_loop_finished fuel s NewStatistics H) as F1.
  destruct (statistics_loop fuel s NewStatistics) as [[st1 s1]| |] eqn:E; simpl;
    [|discriminate|done].
  apply statistics_loop_remaining in E.
  assert (remaining s1 < fuel)%nat as H1 by lia.
  pose proof (parseOperations_finished fuel s1 st1 H1) as F2.
  destruct (parseOperations fuel s1 st1) as [[st2 s2]| |]; simpl; [|discriminate|done].
  destruct (Err s2); discriminate.
Qed.

Lemma Parse_loop_finished fuel s acc :
  (remaining s < fuel)%nat -> finished (Parse_loop fuel s acc).
Proof.
  revert s acc. induction fuel as [|fuel IH]; intros s acc H; [lia|].
  simpl. scan_cases s Hs; [|discriminate].
  apply Scan_true in Hs.
  destruct (len _ =? 0)%nat; [apply IH; lia|].
  apply finished_bind; [apply finished_index|intros f0].
  destruct (String.eqb f0 "device"); [|apply IH; lia].
  destruct (negb _); [apply IH; lia|].
  apply finished_bind; [apply finished_index|intros f7].
  destruct (negb _ && negb _); [apply IH; lia|].
  apply finished_bind; [apply finished_index|intros f8].
  destruct (negb _); [apply IH; lia|].
  apply finished_bind; [apply finished_index|intros f1].
  apply finished_bind; [apply finished_index|intros f4].
  assert (remaining s0 < fuel)%nat as H0 by lia.
  pose proof (parseStatistics_finished fuel s0 H0) as F.
  destruct (parseStatistics fuel s0) as [[[r e] s1]| |] eqn:E; simpl; [|discriminate|done].
  apply parseStatistics_remaining in E.
  destruct e; [discriminate|]. apply IH; lia.
Qed.

(** [Parse] always comes to an end: it returns or it panics. *)
Lemma Parse_finished reader : finished (Parse reader).
Proof. apply Parse_loop_finished. unfold remaining. simpl. lia. Qed.

(** ** One line at a time *)

#[local] Arguments statistics_switch : simpl never.
#[local] Arguments operations_step : simpl never.
#[local] Arguments parseStatistics : simpl never.
#[local] Arguments strings.Fields : simpl never.
#[local] Arguments strings.TrimSuffix : simpl never.
#[local] Arguments makeUint64 : simpl never.
#[local] Arguments OperationCounters_lit : simpl never.

(** Taking a list of known length apart. *)
Ltac explode l H :=
  repeat (let x := fresh "f" in destruct l as [|x l]; simpl in H; try lia).

Lemma statistics_loop_Line_S fuel text rest t e st :
  statistics_loop (S fuel) (Build_Scanner (Line text :: rest) t e) st
  = if ends_statistics (strings.Fields text)
    then Ret (st, Build_Scanner rest text e)
    else st1 ← statistics_switch (strings.Fields text) st;
         statistics_loop fuel (Build_Scanner rest text e) st1.
Proof.
  simpl. unfold Scan, Bytes. simpl.
  destruct (strings.Fields text) as [|f0 fs]; simpl; [done|].
  by destruct (String.eqb f0 "per-op").
Qed.

Lemma statistics_loop_Line fuel text rest t e st :
  (S (length rest) < fuel)%nat ->
  statistics_loop fuel (Build_Scanner (Line text :: rest) t e) st
  = if ends_statistics (strings.Fields text)
    then Ret (st, Build_Scanner rest text e)
    else st1 ← statistics_switch (strings.Fields text) st;
         statistics_loop fuel (Build_Scanner rest text e) st1.
Proof.
  intros H. destruct fuel as [|fuel]; [lia|].
  rewrite statistics_loop_Line_S.
  destruct (ends_statistics _); [done|].
  destruct (statistics_switch _ st) as [st1| |]; cbn [mbind outcome_bind]; try done.
  apply statistics_loop_fuel; unfold remaining; simpl; lia.
Qed.

Lemma parseOperations_Line_S fuel text rest t e st :
  parseOperations (S fuel) (Build_Scanner (Line text :: rest) t e) st
  = if ends_operations (strings.Fields text)
    then Ret (st, Build_Scanner rest text e)
    else st1 ← operations_step (strings.Fields text) st;
         parseOperations fuel (Build_Scanner rest text e) st1.
Proof.
  simpl. unfold Scan, Bytes. simpl.
  destruct (strings.Fields text) as [|f0 fs]; simpl; [done|].
  destruct (String.eqb f0 "device"); [done|].
  unfold operations_step. simpl.
  destruct (negb _); simpl; [done|].
  destruct (OperationCounters_lit _) as [c| |]; simpl; try done.
Qed.

Lemma parseOperations_Line fuel text rest t e st :
  (S (length rest) < fuel)%nat ->
  parseOperations fuel (Build_Scanner (Line text :: rest) t e) st
  = if ends_operations (strings.Fields text)
    then Ret (st, Build_Scanner rest text e)
    else st1 ← operations_step (strings.Fields text) st;
         parseOperations fuel (Build_Scanner rest text e) st1.
Proof.
  intros H. destruct fuel as [|fuel]; [lia|].
  rewrite parseOperations_Line_S.
  destruct (ends_operations _); [done|].
  destruct (operations_step _ st) as [st1| |]; cbn [mbind outcome_bind]; try done.
  apply parseOperations_fuel; unfold remaining; simpl; lia.
Qed.

Lemma is_header_cases (fields : list string) :
  is_header fields = true ->
  exists f1 f2 f3 f4 f5 f6 f7,
    fields = ["device"; f1; f2; f3; f4; f5; f6; f7; "statvers=1.1"]
    /\ (f7 = "nfs" \/ f7 = "nfs4").
Proof.
  unfold is_header. rewrite !andb_true_iff, orb_true_iff, !String.eqb_eq, Nat.eqb_eq.
  intros [[[Hlen H0] H7] H8].
  explode fields Hlen. unfold tok in *. simpl in *. subst. eauto 10.
Qed.

Lemma Parse_loop_Line_S fuel text rest t e acc :
  Parse_loop (S fuel) (Build_Scanner (Line text :: rest) t e) acc
  = if is_header (strings.Fields text)
    then
      '(statistics, err, scanner) ← parseStatistics fuel (Build_Scanner rest text e);
      match err with
      | Some x => Ret ([], Some x)
      | None =>
        Parse_loop fuel scanner (acc ++ [header_mount (strings.Fields text) statistics])
      end
    else Parse_loop fuel (Build_Scanner rest text e) acc.
Proof.
  cbn [Parse_loop]. unfold Scan, Bytes. cbn [Scan_from future err token negb].
  destruct (is_header (strings.Fields text)) eqn:Hh.
  - destruct (is_header_cases _ Hh) as (f1 & f2 & f3 & f4 & f5 & f6 & f7 & -> & H7).
    cbn. replace (negb (String.eqb f7 "nfs") && negb (String.eqb f7 "nfs4")) with false
      by (destruct H7 as [-> | ->]; reflexivity).
    done.
  - destruct (strings.Fields text) as [|f0 fs] eqn:Hf; [done|].
    cbn [len length Nat.eqb index lookup list_lookup mbind outcome_bind].
    destruct (String.eqb f0 "device") eqn:H0; [|reflexivity].
    destruct (length fs =? 8)%nat eqn:Hlen; [|reflexivity].
    apply Nat.eqb_eq in Hlen.
    explode fs Hlen. cbn.
    destruct (negb (String.eqb f6 "nfs") && negb (String.eqb f6 "nfs4")) eqn:H7;
      [reflexivity|].
    destruct (String.eqb f7 "statvers=1.1") eqn:H8; [|reflexivity].
    exfalso. unfold is_header, tok in Hh. simpl in Hh.
    rewrite H0, H8 in Hh. simpl in Hh.
    destruct (String.eqb f6 "nfs"), (String.eqb f6 "nfs4"); simpl in *; discriminate.
Qed.

Lemma Parse_loop_Line fuel text rest t e acc :
  (S (length rest) < fuel)%nat ->
  Parse_loop fuel (Build_Scanner (Line text :: rest) t e) acc
  = if is_header (strings.Fields text)
    then
      '(statistics, err, scanner) ← parseStatistics fuel (Build_Scanner rest text e);
      match err with
      | Some x => Ret ([], Some x)
      | None =>
        Parse_loop fuel scanner (acc ++ [header_mount (strings.Fields text) statistics])
      end
    else Parse_loop fuel (Build_Scanner rest text e) acc.
Proof.
  intros H. destruct fuel as [|fuel]; [lia|].
  rewrite Parse_loop_Line_S.
  destruct (is_header (strings.Fields text)).
  - rewrite (parseStatistics_fuel fuel (S fuel)) by (unfold remaining; simpl; lia).
    destruct (parseStatistics (S fuel) _) as [[[r x] s1]| |] eqn:E;
      cbn [mbind outcome_bind]; try done.
    apply parseStatistics_remaining in E. unfold remaining in E. simpl in E.
    destruct x; [done|].
    apply Parse_loop_fuel; unfold remaining; lia.
  - apply Parse_loop_fuel; unfold remaining; simpl; lia.
Qed.

(** ** Numeric conversion *)

Lemma maxUint64_value : strconv.maxUint64 = 18446744073709551615.
Proof. reflexivity. Qed.

Lemma cutoff_value : strconv.cutoff = 1844674407370955162.
Proof. reflexivity. Qed.

Lemma is_digit_range c :
  strconv.is_digit c = true -> 0 <= strings.code c - 48 <= 9.
Proof. unfold strconv.is_digit. rewrite andb_true_iff, !Z.leb_le. lia. Qed.

Lemma decimal_from_leading_ge s n : 0 <= n -> n <= decimal_from (leading_digits s) n.
Proof.
  revert n. induction s as [|c rest IH]; intros n Hn; simpl; [lia|].
  destruct (strconv.is_digit c) eqn:Hc; simpl; [|lia].
  apply is_digit_range in Hc.
  etrans; [|apply IH]; lia.
Qed.

Lemma leading_all_digits s : all_digits s = true -> leading_digits s = s.
Proof.
  induction s as [|c rest IH]; simpl; [done|].
  destruct (strconv.is_digit c); simpl; [|done]. intros H. by rewrite IH.
Qed.

Lemma ParseUint_digits_value s n :
  0 <= n <= strconv.maxUint64 ->
  (strconv.ParseUint_digits s n).1
  = if strconv.maxUint64 <? decimal_from (leading_digits s) n then strconv.maxUint64
    else if all_digits s then decimal_from s n else 0.
Proof.
  revert n. induction s as [|c rest IH]; intros n Hn; simpl.
  { destruct (Z.ltb_spec strconv.maxUint64 n); [lia|done]. }
  destruct (strconv.is_digit c) eqn:Hc; simpl.
  2: { destruct (Z.ltb_spec strconv.maxUint64 n); [lia|done]. }
  apply is_digit_range in Hc.
  pose proof (decimal_from_leading_ge rest (n * 10 + (strings.code c - 48))) as Hge.
  pose proof maxUint64_value as Hmax. pose proof cutoff_value as Hcutoff.
  set (m := n * 10 + (strings.code c - 48)) in *.
  change (2 ^ 64) with 18446744073709551616.
  destruct (Z.leb_spec strconv.cutoff n) as [Hcut|Hcut].
  { simpl. destruct (Z.ltb_spec strconv.maxUint64 (decimal_from (leading_digits rest) m));
      [done|lia]. }
  destruct (Z_lt_ge_dec m 18446744073709551616) as [Hfit|Hover].
  - rewrite (Z.mod_small m) by lia.
    replace (m <? n * 10) with false by lia.
    replace (strconv.maxUint64 <? m) with false by lia.
    simpl. apply IH. lia.
  - replace (m `mod` 18446744073709551616) with (m - 18446744073709551616).
    2: { apply Z.mod_unique with 1; lia. }
    replace (m - 18446744073709551616 <? n * 10) with true by lia.
    simpl.
    destruct (Z.ltb_spec strconv.maxUint64 (decimal_from (leading_digits rest) m));
      [done|lia].
Qed.

(** The value [ParseUint] hands back, whatever its error. *)
Lemma ParseUint_value s : (strconv.ParseUint s).1 = token_value s.
Proof.
  unfold token_value, valid_uint64, decimal.
  destruct s as [|c rest]; [reflexivity|].
  unfold strconv.ParseUint.
  rewrite ParseUint_digits_value by (rewrite maxUint64_value; lia).
  change (negb (String.eqb (String c rest) "")) with true. cbn [andb].
  destruct (all_digits (String c rest)) eqn:Hall; cbn [andb]; [|done].
  rewrite leading_all_digits by done.
  destruct (Z.ltb_spec strconv.maxUint64 (decimal_from (String c rest) 0)),
           (Z.leb_spec (decimal_from (String c rest) 0) strconv.maxUint64);
    try done; lia.
Qed.

Lemma makeUint64_from (fields : list string) (acc : list Z) :
  fold_left (fun (elements : list Z) (element : string) =>
               let '(val, _) := strconv.ParseUint element in elements ++ [val])
            fields acc
  = acc ++ map token_value fields.
Proof.
  revert acc. induction fields as [|f fields IH]; intros acc; simpl.
  - by rewrite app_nil_r.
  - rewrite <- ParseUint_value. destruct (strconv.ParseUint f) as [val o]; simpl.
    rewrite IH. by rewrite <- app_assoc.
Qed.

Lemma makeUint64_map fields : makeUint64 fields = map token_value fields.
Proof. unfold makeUint64. by rewrite makeUint64_from. Qed.

(** ** The effect of one line *)

Lemma statistics_switch_effect fields st :
  statistics_switch fields st = line_effect fields st.
Proof.
  unfold statistics_switch, line_effect.
  destruct fields as [|f0 fs]; [reflexivity|].
  cbn [index lookup list_lookup mbind outcome_bind].
  destruct (String.eqb f0 "age:").
  { destruct fs as [|f1 fs]; [reflexivity|]. cbn.
    rewrite <- ParseUint_value. by destruct (strconv.ParseUint f1). }
  destruct (String.eqb f0 "bytes:").
  { unfold len. destruct (length (f0 :: fs) =? 9)%nat eqn:Hlen; [|reflexivity].
    apply Nat.eqb_eq in Hlen. simpl in Hlen. explode fs Hlen.
    cbn. rewrite makeUint64_map. reflexivity. }
  destruct (String.eqb f0 "events:").
  { unfold len. destruct (length (f0 :: fs) =? 28)%nat eqn:Hlen; [|reflexivity].
    apply Nat.eqb_eq in Hlen. simpl in Hlen. explode fs Hlen.
    cbn. rewrite makeUint64_map. reflexivity. }
  destruct (String.eqb f0 "xprt:"); [|reflexivity].
  destruct fs as [|f1 fs]; [reflexivity|].
  cbn [index lookup list_lookup mbind outcome_bind tok nth length Nat.leb].
  destruct (String.eqb f1 "tcp"); [|reflexivity].
  unfold len. cbn [length].
  destruct (S (S (length fs)) =? 15)%nat eqn:Hlen; [|reflexivity].
  apply Nat.eqb_eq in Hlen. explode fs Hlen.
  cbn. rewrite makeUint64_map. reflexivity.
Qed.

Lemma operations_step_effect fields st :
  operations_step fields st = operation_effect fields st.
Proof.
  unfold operations_step, operation_effect.
  destruct fields as [|f0 fs]; [reflexivity|].
  cbn [index lookup list_lookup mbind outcome_bind].
  unfold len. destruct (length (f0 :: fs) =? 9)%nat eqn:Hlen; [|reflexivity].
  apply Nat.eqb_eq in Hlen. simpl in Hlen. explode fs Hlen.
  cbn. rewrite makeUint64_map. reflexivity.
Qed.

(** ** Blocks of lines *)

Lemma statistics_loop_nil fuel t e st :
  (0 < fuel)%nat ->
  statistics_loop fuel (Build_Scanner [] t e) st = Ret (st, Build_Scanner [] "" e).
Proof. destruct fuel; [lia|reflexivity]. Qed.

Lemma parseOperations_nil fuel t e st :
  (0 < fuel)%nat ->
  parseOperations fuel (Build_Scanner [] t e) st = Ret (st, Build_Scanner [] "" e).
Proof. destruct fuel; [lia|reflexivity]. Qed.

Lemma Parse_loop_nil fuel t e acc :
  (0 < fuel)%nat -> Parse_loop fuel (Build_Scanner [] t e) acc = Ret (acc, e).
Proof. destruct fuel; [lia|reflexivity]. Qed.

Lemma statistics_loop_block block tail t e st fuel :
  Forall (fun text => ends_statistics (strings.Fields text) = false) block ->
  (length block + length tail < fuel)%nat ->
  statistics_loop fuel (Build_Scanner (map Line block ++ tail) t e) st
  = st1 ← statistics_block block st;
    statistics_loop fuel (Build_Scanner tail "" e) st1.
Proof.
  intros Hblock. revert t st.
  induction Hblock as [|text block Htext _ IH]; intros t st Hfuel; simpl in *.
  - apply statistics_loop_token.
  - rewrite statistics_loop_Line by (rewrite length_app, length_map; lia).
    rewrite Htext.
    destruct (statistics_switch (strings.Fields text) st) as [st1| |]; simpl; try done.
    apply IH. lia.
Qed.

Lemma parseOperations_table table tail t e st fuel :
  Forall (fun text => ends_operations (strings.Fields text) = false) table ->
  (length table + length tail < fuel)%nat ->
  parseOperations fuel (Build_Scanner (map Line table ++ tail) t e) st
  = st1 ← operations_table table st;
    parseOperations fuel (Build_Scanner tail "" e) st1.
Proof.
  intros Htable. revert t st.
  induction Htable as [|text table Htext _ IH]; intros t st Hfuel; simpl in *.
  - apply parseOperations_token.
  - rewrite parseOperations_Line by (rewrite length_app, length_map; lia).
    rewrite Htext.
    destruct (operations_step (strings.Fields text) st) as [st1| |]; simpl; try done.
    apply IH. lia.
Qed.

(** *** Lines that cannot fail *)

Lemma line_effect_block_line text st :
  block_line text = true ->
  exists st1, line_effect (strings.Fields text) st = Ret st1
              /\ Operation st1 = Operation st.
Proof.
  unfold block_line, line_effect.
  destruct (strings.Fields text) as [|f0 fs]; [done|].
  rewrite !andb_true_iff. intros [_ Harg]. revert Harg. unfold tok. cbn [nth].
  destruct (String.eqb f0 "age:"); cbn [orb].
  { intros ->. eauto. }
  destruct (String.eqb f0 "bytes:"); [destruct (_ =? 9)%nat; eauto|].
  destruct (String.eqb f0 "events:"); [destruct (_ =? 28)%nat; eauto|].
  destruct (String.eqb f0 "xprt:"); [|eauto].
  intros ->. destruct (_ && _); eauto.
Qed.

Lemma statistics_block_safe stats st :
  forallb block_line stats = true ->
  exists st1, statistics_block stats st = Ret st1 /\ Operation st1 = Operation st.
Proof.
  revert st. induction stats as [|text stats IH]; intros st H; simpl in *; [eauto|].
  apply andb_true_iff in H as [Htext Hstats].
  destruct (line_effect_block_line text st Htext) as (st1 & E1 & O1).
  rewrite statistics_switch_effect, E1. simpl.
  destruct (IH st1 Hstats) as (st2 & E2 & O2).
  exists st2. split; [done|congruence].
Qed.

Lemma operation_effect_allocated fields st m :
  ends_operations fields = false ->
  Operation st = Some m ->
  exists st1 m1, operation_effect fields st = Ret st1 /\ Operation st1 = Some m1.
Proof.
  intros Hends Hm. unfold operation_effect.
  destruct fields as [|f0 fs]; [done|].
  destruct (_ =? 9)%nat; [|eauto].
  unfold assign_Operation. rewrite Hm. simpl. eauto.
Qed.

Lemma operations_table_safe ops st m :
  forallb operation_line ops = true ->
  Operation st = Some m ->
  exists st1 m1, operations_table ops st = Ret st1 /\ Operation st1 = Some m1.
Proof.
  revert st m. induction ops as [|text ops IH]; intros st m H Hm; simpl in *; [eauto|].
  apply andb_true_iff in H as [Htext Hops].
  unfold operation_line in Htext. apply negb_true_iff in Htext.
  destruct (operation_effect_allocated _ st m Htext Hm) as (st1 & m1 & E1 & O1).
  rewrite operations_step_effect, E1. simpl. eauto.
Qed.

Lemma forallb_block_line_ends stats :
  forallb block_line stats = true ->
  Forall (fun text => ends_statistics (strings.Fields text) = false) stats.
Proof.
  rewrite forallb_forall, List.Forall_forall. intros H text Hin.
  specialize (H text Hin). unfold block_line in H.
  rewrite !andb_true_iff, negb_true_iff in H. tauto.
Qed.

Lemma forallb_statistics_line_block stats :
  forallb statistics_line stats = true -> forallb block_line stats = true.
Proof.
  rewrite !forallb_forall. intros H text Hin.
  specialize (H text Hin). unfold statistics_line in H.
  by apply andb_true_iff in H as [? _].
Qed.

Lemma forallb_operation_line_ends ops :
  forallb operation_line ops = true ->
  Forall (fun text => ends_operations (strings.Fields text) = false) ops.
Proof.
  rewrite forallb_forall, List.Forall_forall. intros H text Hin.
  specialize (H text Hin). unfold operation_line in H.
  by rewrite negb_true_iff in H.
Qed.

(** *** One complete entry *)

Lemma parseStatistics_entry stats perop ops blank :
  forallb block_line stats = true ->
  per_op_line perop = true ->
  forallb operation_line ops = true ->
  blank_line blank = true ->
  exists st m,
    Operation st = Some m
    /\ forall tail t fuel,
        (length stats + S (length ops + S (length tail)) < fuel)%nat ->
        parseStatistics fuel
          (Build_Scanner
             (map Line stats ++ Line perop :: map Line ops ++ Line blank :: tail) t None)
        = Ret (Some st, None, Build_Scanner tail blank None).
Proof.
  intros Hstats Hperop Hops Hblank.
  destruct (statistics_block_safe stats NewStatistics Hstats) as (st1 & E1 & O1).
  destruct (operations_table_safe ops st1 ∅ Hops) as (st2 & m2 & E2 & O2); [done|].
  exists st2, m2. split; [done|]. intros tail t fuel Hfuel.
  unfold parseStatistics.
  rewrite statistics_loop_block;
    [|by apply forallb_block_line_ends
     |simpl; rewrite length_app, length_map; simpl; lia].
  rewrite E1. cbn [mbind outcome_bind].
  rewrite statistics_loop_Line by (rewrite length_app, length_map; simpl; lia).
  replace (ends_statistics (strings.Fields perop)) with true.
  2: { unfold per_op_line in Hperop. by destruct (strings.Fields perop). }
  cbn [mbind outcome_bind].
  rewrite parseOperations_table;
    [|by apply forallb_operation_line_ends|simpl; lia].
  rewrite E2. cbn [mbind outcome_bind].
  rewrite parseOperations_Line by lia.
  replace (ends_operations (strings.Fields blank)) with true.
  2: { unfold blank_line in Hblank. by destruct (strings.Fields blank). }
  reflexivity.
Qed.

(** ** Well-formed files *)

Lemma count_headers_cons text rest :
  count_headers (text :: rest)
  = ((if is_header (strings.Fields text) then 1 else 0) + count_headers rest)%nat.
Proof.
  unfold count_headers.
  destruct (is_header (strings.Fields text)) eqn:H.
  - by rewrite filter_cons_True.
  - rewrite filter_cons_False; [done|]. by rewrite H.
Qed.

Lemma count_headers_app a b :
  count_headers (a ++ b) = (count_headers a + count_headers b)%nat.
Proof. unfold count_headers. by rewrite filter_app, length_app. Qed.

Lemma count_headers_none lines :
  Forall (fun text => is_header (strings.Fields text) = false) lines ->
  count_headers lines = 0%nat.
Proof.
  induction 1 as [|text lines H _ IH]; [done|].
  by rewrite count_headers_cons, H, IH.
Qed.

Lemma ends_statistics_no_header fields : ends_statistics fields = true -> is_header fields = false.
Proof.
  destruct fields as [|f0 fs]; [done|]. simpl. intros H%String.eqb_eq. subst.
  unfold is_header, tok. simpl. by rewrite andb_false_r.
Qed.

Lemma operation_line_no_header text :
  operation_line text = true -> is_header (strings.Fields text) = false.
Proof.
  unfold operation_line, is_header, tok.
  destruct (strings.Fields text) as [|f0 fs]; [done|].
  cbn [ends_operations nth]. intros ->%negb_true_iff. by rewrite andb_false_r.
Qed.

Lemma blank_line_no_header text :
  blank_line text = true -> is_header (strings.Fields text) = false.
Proof. unfold blank_line. by destruct (strings.Fields text). Qed.

Lemma per_op_line_no_header text :
  per_op_line text = true -> is_header (strings.Fields text) = false.
Proof.
  unfold per_op_line. intros H. apply ends_statistics_no_header.
  by destruct (strings.Fields text).
Qed.

Lemma count_headers_entry header stats perop ops blank rest :
  is_header (strings.Fields header) = true ->
  forallb statistics_line stats = true ->
  per_op_line perop = true ->
  forallb operation_line ops = true ->
  blank_line blank = true ->
  count_headers (header :: stats ++ perop :: ops ++ blank :: rest)
  = S (count_headers rest).
Proof.
  intros Hh Hstats Hperop Hops Hblank.
  rewrite count_headers_cons, Hh, count_headers_app, count_headers_cons,
    count_headers_app, count_headers_cons.
  rewrite (per_op_line_no_header _ Hperop), (blank_line_no_header _ Hblank).
  rewrite (count_headers_none stats), (count_headers_none ops); [done| |].
  - rewrite forallb_forall in Hops. apply List.Forall_forall. intros text Hin.
    by apply operation_line_no_header, Hops.
  - rewrite forallb_forall in Hstats. apply List.Forall_forall. intros text Hin.
    specialize (Hstats text Hin). unfold statistics_line in Hstats.
    apply andb_true_iff in Hstats as [_ H]. by apply negb_true_iff in H.
Qed.

(** Lines that are no headers pass the top-level loop without a trace. *)
Lemma Parse_loop_skip lines tail t e acc fuel :
  Forall (fun text => is_header (strings.Fields text) = false) lines ->
  (length lines + length tail < fuel)%nat ->
  Parse_loop fuel (Build_Scanner (map Line lines ++ tail) t e) acc
  = Parse_loop fuel (Build_Scanner tail "" e) acc.
Proof.
  intros Hlines. revert t.
  induction Hlines as [|text lines Htext _ IH]; intros t Hfuel; simpl in *.
  - apply Parse_loop_token.
  - rewrite Parse_loop_Line by (rewrite length_app, length_map; lia).
    rewrite Htext. apply IH. lia.
Qed.

(** The top-level loop on complete entries: one record per header, and the
    loop is back between two entries when they are read. *)
Lemma Parse_loop_entries pre :
  complete_entries pre ->
  exists ms,
    length ms = count_headers pre
    /\ Forall mount_ok ms
    /\ forall tail t acc fuel,
        (length pre + length tail < fuel)%nat ->
        Parse_loop fuel (Build_Scanner (map Line pre ++ tail) t None) acc
        = Parse_loop fuel (Build_Scanner tail "" None) (acc ++ ms).
Proof.
  induction 1 as [|text rest Htext _ (ms & Hlen & Hok & IH)
                  |header stats perop ops blank rest Hh Hstats Hperop Hops Hblank _
                     (ms & Hlen & Hok & IH)].
  - exists []. split; [done|]. split; [done|]. intros tail t acc fuel _.
    simpl. rewrite app_nil_r. apply Parse_loop_token.
  - exists ms. split; [by rewrite count_headers_cons, Htext|]. split; [done|].
    intros tail t acc fuel Hfuel. simpl in *.
    rewrite Parse_loop_Line by (rewrite length_app, length_map; lia).
    rewrite Htext. apply IH. lia.
  - pose proof (forallb_statistics_line_block _ Hstats) as Hblock.
    destruct (parseStatistics_entry stats perop ops blank Hblock Hperop Hops Hblank)
      as (st & m & Hm & Hentry).
    exists (header_mount (strings.Fields header) (Some st) :: ms).
    split; [by rewrite (count_headers_entry _ _ _ _ _ _ Hh Hstats Hperop Hops Hblank),
              <- Hlen|].
    split.
    { constructor; [|done]. split; [by exists st, m|].
      simpl. destruct (String.eqb _ "nfs4"); auto. }
    intros tail t acc fuel Hfuel.
    replace (map Line (header :: stats ++ perop :: ops ++ blank :: rest) ++ tail)
      with (Line header
              :: map Line stats ++ Line perop :: map Line ops
              ++ Line blank :: (map Line rest ++ tail)).
    2: { simpl. rewrite !List.map_app. simpl. rewrite List.map_app. simpl.
         rewrite <- !app_assoc. simpl. by rewrite <- !app_assoc. }
    simpl in Hfuel. rewrite !length_app in Hfuel. simpl in Hfuel.
    rewrite length_app in Hfuel. simpl in Hfuel.
    rewrite Parse_loop_Line
      by (rewrite !length_app, !length_map; simpl;
          rewrite !length_app, !length_map; simpl; rewrite !length_app, !length_map; lia).
    rewrite Hh, Hentry
      by (rewrite !length_app, !length_map; lia).
    cbn [mbind outcome_bind].
    rewrite (Parse_loop_token _ _ blank t).
    rewrite IH by lia.
    by rewrite <- app_assoc.
Qed.

(** The top-level loop on an entry that the end of the input cuts short. *)
Lemma Parse_loop_last_entry last :
  last_entry last ->
  exists ms,
    length ms = count_headers last
    /\ forall t acc fuel,
        (length last < fuel)%nat ->
        Parse_loop fuel (Build_Scanner (map Line last) t None) acc
        = Ret (acc ++ ms, None).
Proof.
  intros [|header stats Hh Hstats|header stats perop ops Hh Hstats Hperop Hops].
  - exists []. split; [done|]. intros t acc fuel Hfuel.
    rewrite app_nil_r. simpl. by rewrite Parse_loop_nil by lia.
  - pose proof (forallb_statistics_line_block _ Hstats) as Hblock.
    destruct (statistics_block_safe stats NewStatistics Hblock) as (st1 & E1 & _).
    exists [header_mount (strings.Fields header) (Some st1)]. split.
    { rewrite count_headers_cons, Hh, count_headers_none; [done|].
      rewrite forallb_forall in Hstats. apply List.Forall_forall. intros text Hin.
      specialize (Hstats text Hin). unfold statistics_line in Hstats.
      apply andb_true_iff in Hstats as [_ H]. by apply negb_true_iff in H. }
    intros t acc fuel Hfuel. simpl in *.
    rewrite Parse_loop_Line by (rewrite length_map; lia).
    rewrite Hh. unfold parseStatistics.
    rewrite <- (app_nil_r (map Line stats)).
    rewrite statistics_loop_block; [|by apply forallb_block_line_ends|simpl; lia].
    rewrite E1. cbn [mbind outcome_bind].
    rewrite statistics_loop_nil by lia. cbn [mbind outcome_bind].
    rewrite parseOperations_nil by lia. cbn [mbind outcome_bind mret outcome_ret Err err].
    by rewrite Parse_loop_nil by lia.
  - pose proof (forallb_statistics_line_block _ Hstats) as Hblock.
    destruct (statistics_block_safe stats NewStatistics Hblock) as (st1 & E1 & O1).
    destruct (operations_table_safe ops st1 ∅ Hops) as (st2 & m2 & E2 & _); [done|].
    exists [header_mount (strings.Fields header) (Some st2)]. split.
    { rewrite count_headers_cons, Hh, count_headers_app, count_headers_cons.
      rewrite (per_op_line_no_header _ Hperop).
      rewrite (count_headers_none stats), (count_headers_none ops); [done| |].
      - rewrite forallb_forall in Hops. apply List.Forall_forall. intros text Hin.
        by apply operation_line_no_header, Hops.
      - rewrite forallb_forall in Hstats. apply List.Forall_forall. intros text Hin.
        specialize (Hstats text Hin). unfold statistics_line in Hstats.
        apply andb_true_iff in Hstats as [_ H]. by apply negb_true_iff in H. }
    intros t acc fuel Hfuel. simpl in Hfuel. rewrite length_app in Hfuel. simpl in Hfuel.
    cbn [map]. rewrite List.map_app. cbn [map].
    rewrite Parse_loop_Line
      by (rewrite length_app, length_map; simpl; rewrite length_map; lia).
    rewrite Hh. unfold parseStatistics.
    rewrite statistics_loop_block;
      [|by apply forallb_block_line_ends|simpl; rewrite length_map; lia].
    rewrite E1. cbn [mbind outcome_bind].
    rewrite statistics_loop_Line by (rewrite length_map; lia).
    replace (ends_statistics (strings.Fields perop)) with true.
    2: { unfold per_op_line in Hperop. by destruct (strings.Fields perop). }
    cbn [mbind outcome_bind].
    rewrite <- (app_nil_r (map Line ops)).
    rewrite parseOperations_table; [|by apply forallb_operation_line_ends|simpl; lia].
    rewrite E2. cbn [mbind outcome_bind].
    rewrite parseOperations_nil by lia. cbn [mbind outcome_bind mret outcome_ret Err err].
    by rewrite Parse_loop_nil by lia.
Qed.

(** ** What the loops keep *)

Lemma line_effect_Operation fields st st1 :
  line_effect fields st = Ret st1 -> Operation st1 = Operation st.
Proof.
  unfold line_effect. destruct fields as [|f0 fs]; [done|].
  repeat match goal with
         | |- context [if ?b then _ else _] => destruct b
         end; intros H; by inversion H.
Qed.

Lemma statistics_loop_Operation fuel s st st1 s1 :
  statistics_loop fuel s st = Ret (st1, s1) -> Operation st1 = Operation st.
Proof.
  revert s st. induction fuel as [|fuel IH]; intros s st; [discriminate|].
  simpl. scan_cases s Hs; intros H; [|by inversion H].
  destruct (len _ =? 0)%nat; [by inversion H|].
  destruct (index _ 0) as [f0| |]; simpl in H; try discriminate.
  destruct (String.eqb f0 "per-op"); [by inversion H|].
  destruct (statistics_switch _ st) as [st2| |] eqn:E; simpl in H; try discriminate.
  rewrite statistics_switch_effect in E. apply line_effect_Operation in E.
  apply IH in H. congruence.
Qed.

Lemma parseOperations_Operation fuel s st st1 s1 :
  parseOperations fuel s st = Ret (st1, s1) ->
  is_Some (Operation st) -> is_Some (Operation st1).
Proof.
  revert s st. induction fuel as [|fuel IH]; intros s st; [discriminate|].
  simpl. scan_cases s Hs; intros H Hst; [|by inversion H; subst].
  destruct (len _ =? 0)%nat; [by inversion H; subst|].
  destruct (index _ 0) as [f0| |]; simpl in H; try discriminate.
  destruct (String.eqb f0 "device"); [by inversion H; subst|].
  destruct (negb _); [by eapply IH|].
  destruct (slice_from _ 1) as [tl| |]; simpl in H; try discriminate.
  destruct (OperationCounters_lit _) as [c| |]; simpl in H; try discriminate.
  destruct (assign_Operation st _ c) as [st2| |] eqn:E; simpl in H; try discriminate.
  eapply IH; [done|].
  unfold assign_Operation in E. destruct (Operation st); [|done].
  inversion E. by eexists.
Qed.

Lemma parseStatistics_allocated fuel s r s1 :
  parseStatistics fuel s = Ret (r, None, s1) ->
  exists st m, r = Some st /\ Operation st = Some m.
Proof.
  unfold parseStatistics. intros H.
  destruct (statistics_loop fuel s NewStatistics) as [[st1 s2]| |] eqn:E1;
    simpl in H; try discriminate.
  destruct (parseOperations fuel s2 st1) as [[st2 s3]| |] eqn:E2;
    simpl in H; try discriminate.
  apply statistics_loop_Operation in E1.
  apply parseOperations_Operation in E2; [|rewrite E1; by eexists].
  destruct (Err s3); inversion H; subst.
  destruct E2 as [m Hm]. eauto.
Qed.

Lemma Parse_loop_mount_ok fuel s acc ms e :
  Forall mount_ok acc ->
  Parse_loop fuel s acc = Ret (ms, e) ->
  Forall mount_ok ms.
Proof.
  revert s acc. induction fuel as [|fuel IH]; intros s acc Hacc; [discriminate|].
  simpl. scan_cases s Hs; intros H; [|by inversion H; subst].
  destruct (len _ =? 0)%nat; [by eapply IH|].
  destruct (index _ 0) as [f0| |]; simpl in H; try discriminate.
  destruct (String.eqb f0 "device"); [|by eapply IH].
  destruct (negb _); [by eapply IH|].
  destruct (index _ 7) as [f7| |]; simpl in H; try discriminate.
  destruct (negb _ && negb _); [by eapply IH|].
  destruct (index _ 8) as [f8| |]; simpl in H; try discriminate.
  destruct (negb _); [by eapply IH|].
  destruct (index _ 1) as [f1| |]; simpl in H; try discriminate.
  destruct (index _ 4) as [f4| |]; simpl in H; try discriminate.
  destruct (parseStatistics fuel s0) as [[[r x] s1]| |] eqn:E; simpl in H;
    try discriminate.
  destruct x as [x|]; [inversion H; subst; constructor|].
  apply parseStatistics_allocated in E as (st & m & -> & Hm).
  eapply IH; [|done].
  apply Forall_app. split; [done|]. constructor; [|done].
  split; [by exists st, m|]. simpl. destruct (String.eqb f7 "nfs4"); auto.
Qed.

(** ** Frames of a statistics block *)

Lemma statistics_block_app a b st :
  statistics_block (a ++ b) st = st1 ← statistics_block a st; statistics_block b st1.
Proof.
  revert st. induction a as [|text a IH]; intros st; simpl; [done|].
  destruct (statistics_switch _ st) as [st1| |]; simpl; auto.
Qed.

Lemma operations_table_app a b st :
  operations_table (a ++ b) st = st1 ← operations_table a st; operations_table b st1.
Proof.
  revert st. induction a as [|text a IH]; intros st; simpl; [done|].
  destruct (operations_step _ st) as [st1| |]; simpl; auto.
Qed.

(** A block without a [bytes:] line keeps the byte counters. *)
Lemma statistics_block_Byte lines st :
  forallb (fun text => block_line text
                       && negb (String.eqb (tok (strings.Fields text) 0) "bytes:"))
          lines = true ->
  exists st1, statistics_block lines st = Ret st1 /\ Byte st1 = Byte st.
Proof.
  revert st. induction lines as [|text lines IH]; intros st H; simpl in *; [eauto|].
  apply andb_true_iff in H as [Htext Hlines].
  apply andb_true_iff in Htext as [Hblock Hbytes]. apply negb_true_iff in Hbytes.
  destruct (line_effect_block_line text st Hblock) as (st1 & E1 & _).
  assert (Byte st1 = Byte st) as B1.
  { revert E1 Hbytes. unfold line_effect, tok.
    destruct (strings.Fields text) as [|f0 fs]; [done|]. cbn [nth]. intros E1 Hb.
    rewrite Hb in E1. revert E1.
    repeat match goal with
           | |- context [if ?b then _ else _] => destruct b
           end; intros E1; by inversion E1. }
  rewrite statistics_switch_effect, E1. simpl.
  destruct (IH st1 Hlines) as (st2 & E2 & B2).
  exists st2. split; [done|congruence].
Qed.

(** A block without an [xprt: tcp] line keeps the transport counters. *)
Lemma statistics_block_Transport lines st :
  forallb (fun text => block_line text
                       && negb (String.eqb (tok (strings.Fields text) 0) "xprt:"
                                && String.eqb (tok (strings.Fields text) 1) "tcp"))
          lines = true ->
  exists st1, statistics_block lines st = Ret st1 /\ Transport st1 = Transport st.
Proof.
  revert st. induction lines as [|text lines IH]; intros st H; simpl in *; [eauto|].
  apply andb_true_iff in H as [Htext Hlines].
  apply andb_true_iff in Htext as [Hblock Hxprt]. apply negb_true_iff in Hxprt.
  destruct (line_effect_block_line text st Hblock) as (st1 & E1 & _).
  assert (Transport st1 = Transport st) as T1.
  { revert E1 Hxprt. unfold line_effect.
    destruct (strings.Fields text) as [|f0 fs]; [done|].
    change (tok (f0 :: fs) 0) with f0.
    destruct (String.eqb f0 "age:"); [destruct (_ <=? _)%nat; intros E1; by inversion E1|].
    destruct (String.eqb f0 "bytes:"); [destruct (_ =? _)%nat; intros E1; by inversion E1|].
    destruct (String.eqb f0 "events:"); [destruct (_ =? _)%nat; intros E1; by inversion E1|].
    destruct (String.eqb f0 "xprt:"); [|intros E1; by inversion E1].
    cbn [andb]. intros E1 Htcp. revert E1. rewrite Htcp. cbn [andb].
    destruct (_ <=? _)%nat; intros E1; by inversion E1. }
  rewrite statistics_switch_effect, E1. simpl.
  destruct (IH st1 Hlines) as (st2 & E2 & T2).
  exists st2. split; [done|congruence].
Qed.

(** The table of an input without read error: the loop returns, no error is
    recorded, and only the operation map has changed. *)
Lemma parseOperations_clean lines t st m fuel :
  Operation st = Some m ->
  (length lines < fuel)%nat ->
  exists st1 s1,
    parseOperations fuel (Build_Scanner (map Line lines) t None) st = Ret (st1, s1)
    /\ err s1 = None /\ Byte st1 = Byte st /\ Transport st1 = Transport st.
Proof.
  revert t st m. induction lines as [|text lines IH]; intros t st m Hm Hfuel; simpl in *.
  - rewrite parseOperations_nil by lia. eauto 10.
  - rewrite parseOperations_Line by (rewrite length_map; lia).
    destruct (ends_operations (strings.Fields text)) eqn:Hends; [eauto 10|].
    destruct (operation_effect_allocated _ st m Hends Hm) as (st1 & m1 & E1 & O1).
    assert (Byte st1 = Byte st /\ Transport st1 = Transport st) as [B1 T1].
    { revert E1. unfold operation_effect, assign_Operation. rewrite Hm.
      destruct (strings.Fields text); [done|].
      destruct (_ =? 9)%nat; intros E1; by inversion E1. }
    rewrite operations_step_effect, E1. simpl.
    destruct (IH text st1 m1 O1) as (st2 & s2 & E2 & ? & B2 & T2); [lia|].
    exists st2, s2. rewrite E2. repeat split; congruence.
Qed.

(** The pile only grows: what [Parse] returns without error starts with the
    records made so far. *)
Lemma Parse_loop_prefix fuel s acc ms :
  Parse_loop fuel s acc = Ret (ms, None) -> exists more, ms = acc ++ more.
Proof.
  revert s acc. induction fuel as [|fuel IH]; intros s acc; [discriminate|].
  assert (forall s' extra, Parse_loop fuel s' (acc ++ extra) = Ret (ms, None) ->
                           exists more, ms = acc ++ more) as Hgrow.
  { intros s' extra H. apply IH in H as (more & ->).
    exists (extra ++ more). by rewrite app_assoc. }
  assert (forall s', Parse_loop fuel s' acc = Ret (ms, None) ->
                     exists more, ms = acc ++ more) as Hsame.
  { intros s' H. apply (Hgrow s' []). by rewrite app_nil_r. }
  simpl. scan_cases s Hs; intros H.
  2: { inversion H. exists []. by rewrite app_nil_r. }
  destruct (len _ =? 0)%nat; [by eapply Hsame|].
  destruct (index _ 0) as [f0| |]; simpl in H; try discriminate.
  destruct (String.eqb f0 "device"); [|by eapply Hsame].
  destruct (negb _); [by eapply Hsame|].
  destruct (index _ 7) as [f7| |]; simpl in H; try discriminate.
  destruct (negb _ && negb _); [by eapply Hsame|].
  destruct (index _ 8) as [f8| |]; simpl in H; try discriminate.
  destruct (negb _); [by eapply Hsame|].
  destruct (index _ 1) as [f1| |]; simpl in H; try discriminate.
  destruct (index _ 4) as [f4| |]; simpl in H; try discriminate.
  destruct (parseStatistics fuel s0) as [[[r x] s1]| |]; simpl in H; try discriminate.
  destruct x; [discriminate|]. by eapply Hgrow.
Qed.

(** The record of a header whose statistics are known. *)
Lemma Parse_header_first h rest t fuel st s1 ms :
  is_header (strings.Fields h) = true ->
  (length rest < fuel)%nat ->
  parseStatistics fuel (Build_Scanner rest t None) = Ret (Some st, None, s1) ->
  Parse (Line h :: rest) = Ret (ms, None) ->
  exists more, ms = header_mount (strings.Fields h) (Some st) :: more.
Proof.
  intros Hh Hfuel Hst. unfold Parse, NewScanner. cbn [length].
  rewrite Parse_loop_Line_S, Hh.
  rewrite (parseStatistics_token _ _ h t).
  rewrite (parseStatistics_fuel _ fuel) by (unfold remaining; simpl; lia).
  rewrite Hst. cbn [mbind outcome_bind app].
  intros H. by apply Parse_loop_prefix in H.
Qed.

(** ** A line of a block that changes nothing *)

Lemma statistics_loop_closed tail st fuel :
  closes_statistics tail = true ->
  (length tail < fuel)%nat ->
  exists t, statistics_loop fuel (Build_Scanner (map Line tail) "" None) st
            = Ret (st, Build_Scanner (map Line (List.tl tail)) t None).
Proof.
  intros Hclose Hfuel. destruct tail as [|text tail]; simpl in *.
  - exists "". by rewrite statistics_loop_nil by lia.
  - exists text. rewrite statistics_loop_Line by (rewrite length_map; lia).
    by rewrite Hclose.
Qed.

Lemma parseStatistics_block block tail t fuel st0 :
  Forall (fun text => ends_statistics (strings.Fields text) = false) block ->
  statistics_block block NewStatistics = Ret st0 ->
  Operation st0 = Some ∅ ->
  closes_statistics tail = true ->
  (length block + length tail < fuel)%nat ->
  exists st s1,
    parseStatistics fuel (Build_Scanner (map Line (block ++ tail)) t None)
    = Ret (Some st, None, s1)
    /\ Byte st = Byte st0 /\ Transport st = Transport st0
    /\ forall block',
        Forall (fun text => ends_statistics (strings.Fields text) = false) block' ->
        statistics_block block' NewStatistics = Ret st0 ->
        (length block' + length tail < fuel)%nat ->
        parseStatistics fuel (Build_Scanner (map Line (block' ++ tail)) t None)
        = Ret (Some st, None, s1).
Proof.
  intros Hblock Hst0 Hop Hclose Hfuel.
  destruct (statistics_loop_closed tail st0 fuel Hclose) as (t1 & E1); [lia|].
  destruct (parseOperations_clean (List.tl tail) t1 st0 ∅ fuel Hop)
    as (st & s1 & E2 & Herr & HB & HT).
  { destruct tail; simpl in *; lia. }
  assert (forall block',
             Forall (fun text => ends_statistics (strings.Fields text) = false) block' ->
             statistics_block block' NewStatistics = Ret st0 ->
             (length block' + length tail < fuel)%nat ->
             parseStatistics fuel (Build_Scanner (map Line (block' ++ tail)) t None)
             = Ret (Some st, None, s1)) as Hrun.
  { intros block' Hblock' Hst0' Hfuel'. unfold parseStatistics.
    rewrite List.map_app, statistics_loop_block by (rewrite ?length_map; done).
    rewrite Hst0'. cbn [mbind outcome_bind]. rewrite E1. cbn [mbind outcome_bind].
    rewrite E2. cbn [mbind outcome_bind]. unfold Err. by rewrite Herr. }
  exists st, s1. split; [by apply Hrun|]. done.
Qed.

Lemma parseStatistics_ignored before line after tail t fuel :
  forallb block_line (before ++ after) = true ->
  ends_statistics (strings.Fields line) = false ->
  (forall st, line_effect (strings.Fields line) st = Ret st) ->
  closes_statistics tail = true ->
  (length (before ++ line :: after ++ tail) < fuel)%nat ->
  exists st0 st s1,
    statistics_block (before ++ after) NewStatistics = Ret st0
    /\ parseStatistics fuel
         (Build_Scanner (map Line (before ++ line :: after ++ tail)) t None)
       = Ret (Some st, None, s1)
    /\ parseStatistics fuel (Build_Scanner (map Line (before ++ after ++ tail)) t None)
       = Ret (Some st, None, s1)
    /\ Byte st = Byte st0 /\ Transport st = Transport st0.
Proof.
  intros Hlines Hcont Hnop Hclose Hfuel.
  destruct (statistics_block_safe _ NewStatistics Hlines) as (st0 & E0 & O0).
  pose proof (forallb_block_line_ends _ Hlines) as Hends.
  apply Forall_app in Hends as [Hends1 Hends2].
  assert (statistics_block (before ++ line :: after) NewStatistics = Ret st0) as E0'.
  { rewrite statistics_block_app in E0 |- *.
    destruct (statistics_block before NewStatistics) as [stb| |]; try discriminate.
    cbn [mbind outcome_bind statistics_block] in E0 |- *.
    by rewrite statistics_switch_effect, Hnop. }
  rewrite !length_app in Hfuel. simpl in Hfuel. rewrite length_app in Hfuel.
  destruct (parseStatistics_block (before ++ after) tail t fuel st0)
    as (st & s1 & Hrun & HB & HT & Hany); try done.
  { by apply Forall_app. }
  { rewrite length_app. lia. }
  exists st0, st, s1. split; [done|]. split; [|split; [|done]].
  - replace (before ++ line :: after ++ tail) with ((before ++ line :: after) ++ tail)
      by (by rewrite <- app_assoc).
    apply Hany; [|done|rewrite length_app; simpl; lia].
    apply Forall_app. split; [done|]. by constructor.
  - by rewrite app_assoc.
Qed.

(** ** The per-operation table *)

Lemma operations_table_keep name lines st m :
  forallb operation_line lines = true ->
  forallb (fun text =>
             negb ((length (strings.Fields text) =? 9)%nat
                   && String.eqb (operation_name (strings.Fields text)) name))
          lines = true ->
  Operation st = Some m ->
  exists st1 m1, operations_table lines st = Ret st1
                 /\ Operation st1 = Some m1 /\ m1 !! name = m !! name.
Proof.
  revert st m.
  induction lines as [|text lines IH]; intros st m Hlines Hother Hm; simpl in *; [eauto|].
  apply andb_true_iff in Hlines as [Htext Hlines].
  apply andb_true_iff in Hother as [Hname Hother].
  unfold operation_line in Htext. apply negb_true_iff in Htext, Hname.
  rewrite operations_step_effect. unfold operation_effect.
  destruct (strings.Fields text) as [|f0 fs] eqn:Hf; [done|].
  destruct (length (f0 :: fs) =? 9)%nat; cbn [andb] in Hname.
  - unfold assign_Operation. rewrite Hm. cbn [mbind outcome_bind mret outcome_ret].
    destruct (IH (set_Operation st
                    (Some (<[operation_name (f0 :: fs) := operation_counters (f0 :: fs)]> m)))
                 (<[operation_name (f0 :: fs) := operation_counters (f0 :: fs)]> m))
      as (st1 & m1 & E1 & O1 & L1); try done.
    exists st1, m1. split; [done|]. split; [done|].
    rewrite L1. apply lookup_insert_ne. by apply String.eqb_neq.
  - cbn [mbind outcome_bind]. by apply IH.
Qed.

(** ** One call of [Scan], one round of a loop *)


Lemma Scan_from_lines items e s :
  Scan_from items e = (true, s) -> lines_of items = token s :: lines_of (future s).
Proof.
  revert e. induction items as [|[text|x] rest IH]; intros e H; simpl in *.
  - discriminate.
  - by injection H as <-.
  - eauto.
Qed.

Lemma Scan_from_no_lines items e s :
  Scan_from items e = (false, s) -> lines_of items = [].
Proof.
  revert e. induction items as [|[text|x] rest IH]; intros e H; simpl in *;
    [done|discriminate|eauto].
Qed.

Lemma Scan_lines s s' :
  Scan s = (true, s') -> lines_of (future s) = token s' :: lines_of (future s').
Proof. apply Scan_from_lines. Qed.

Lemma Scan_from_pending items e b s :
  Scan_from items e = (b, s) ->
  pending s = pending (Build_Scanner items "" e).
Proof.
  revert e. induction items as [|[text|x] rest IH]; intros e H; simpl in *.
  - by injection H as _ <-.
  - by injection H as _ <-.
  - apply IH in H. rewrite H. unfold pending. simpl. by destruct e.
Qed.

Lemma Scan_pending s b s' : Scan s = (b, s') -> pending s' = pending s.
Proof. intros H. rewrite (Scan_from_pending _ _ _ _ H). by destruct s. Qed.

Lemma Scan_end_pending s s' : Scan s = (false, s') -> err s' = pending s.
Proof.
  intros H. rewrite <- (Scan_pending _ _ _ H). unfold pending.
  rewrite (Scan_from_false _ _ _ H). by destruct (err s').
Qed.

(** ** One round of each loop, for any scanner *)

Lemma statistics_loop_Scan fuel s s0 st :
  Scan s = (true, s0) ->
  statistics_loop (S fuel) s st
  = if ends_statistics (strings.Fields (token s0))
    then Ret (st, s0)
    else st1 ← line_effect (strings.Fields (token s0)) st;
         statistics_loop fuel s0 st1.
Proof.
  intros Hs.
  transitivity (statistics_loop (S fuel)
                  (Build_Scanner (Line (token s0) :: future s0) "" (err s0)) st).
  - simpl. rewrite Hs. unfold Scan. simpl. by destruct s0.
  - rewrite statistics_loop_Line_S. destruct s0; simpl.
    destruct (ends_statistics _); [done|]. by rewrite statistics_switch_effect.
Qed.

Lemma statistics_loop_Scan_end fuel s s0 st :
  Scan s = (false, s0) -> statistics_loop (S fuel) s st = Ret (st, s0).
Proof. intros Hs. simpl. by rewrite Hs. Qed.

Lemma parseOperations_Scan fuel s s0 st :
  Scan s = (true, s0) ->
  parseOperations (S fuel) s st
  = if ends_operations (strings.Fields (token s0))
    then Ret (st, s0)
    else st1 ← operation_effect (strings.Fields (token s0)) st;
         parseOperations fuel s0 st1.
Proof.
  intros Hs.
  transitivity (parseOperations (S fuel)
                  (Build_Scanner (Line (token s0) :: future s0) "" (err s0)) st).
  - simpl. rewrite Hs. unfold Scan. simpl. by destruct s0.
  - rewrite parseOperations_Line_S. destruct s0; simpl.
    destruct (ends_operations _); [done|]. by rewrite operations_step_effect.
Qed.

Lemma parseOperations_Scan_end fuel s s0 st :
  Scan s = (false, s0) -> parseOperations (S fuel) s st = Ret (st, s0).
Proof. intros Hs. simpl. by rewrite Hs. Qed.

Lemma Parse_loop_Scan fuel s s0 acc :
  Scan s = (true, s0) ->
  Parse_loop (S fuel) s acc
  = if is_header (strings.Fields (token s0))
    then
      '(statistics, err, scanner) ← parseStatistics fuel s0;
      match err with
      | Some x => Ret ([], Some x)
      | None =>
        Parse_loop fuel scanner
                   (acc ++ [header_mount (strings.Fields (token s0)) statistics])
      end
    else Parse_loop fuel s0 acc.
Proof.
  intros Hs.
  transitivity (Parse_loop (S fuel)
                  (Build_Scanner (Line (token s0) :: future s0) "" (err s0)) acc).
  - simpl. rewrite Hs. unfold Scan. simpl. by destruct s0.
  - rewrite Parse_loop_Line_S. by destruct s0.
Qed.

Lemma Parse_loop_Scan_end fuel s s0 acc :
  Scan s = (false, s0) -> Parse_loop (S fuel) s acc = Ret (acc, err s0).
Proof. intros Hs. simpl. by rewrite Hs. Qed.

(** [parseStatistics], taken apart. *)
Lemma parseStatistics_inv fuel s r x s2 :
  parseStatistics fuel s = Ret (r, x, s2) ->
  exists st1 s1 st2,
    statistics_loop fuel s NewStatistics = Ret (st1, s1)
    /\ parseOperations fuel s1 st1 = Ret (st2, s2)
    /\ x = err s2
    /\ r = match err s2 with Some _ => None | None => Some st2 end.
Proof.
  unfold parseStatistics. intros H.
  destruct (statistics_loop fuel s NewStatistics) as [[st1 s1]| |]; simpl in H;
    try discriminate.
  destruct (parseOperations fuel s1 st1) as [[st2 s2']| |] eqn:E2; simpl in H;
    try discriminate.
  unfold Err in H. exists st1, s1, st2.
  destruct (err s2') eqn:Herr; inversion H; subst; rewrite ?Herr; auto.
Qed.

(** ** The error [Parse] returns *)

Lemma statistics_loop_pending fuel s st st1 s1 :
  statistics_loop fuel s st = Ret (st1, s1) -> pending s1 = pending s.
Proof.
  revert s st. induction fuel as [|fuel IH]; intros s st; [discriminate|].
  destruct (Scan s) as [[|] s0] eqn:Hs.
  - rewrite (statistics_loop_Scan _ _ _ _ Hs). apply Scan_pending in Hs.
    destruct (ends_statistics _); [by intros [= <- <-]|].
    destruct (line_effect _ st) as [st2| |]; simpl; try discriminate.
    intros H%IH. congruence.
  - rewrite (statistics_loop_Scan_end _ _ _ _ Hs). apply Scan_pending in Hs.
    by intros [= <- <-].
Qed.

Lemma parseOperations_pending fuel s st st1 s1 :
  parseOperations fuel s st = Ret (st1, s1) -> pending s1 = pending s.
Proof.
  revert s st. induction fuel as [|fuel IH]; intros s st; [discriminate|].
  destruct (Scan s) as [[|] s0] eqn:Hs.
  - rewrite (parseOperations_Scan _ _ _ _ Hs). apply Scan_pending in Hs.
    destruct (ends_operations _); [by intros [= <- <-]|].
    destruct (operation_effect _ st) as [st2| |]; simpl; try discriminate.
    intros H%IH. congruence.
  - rewrite (parseOperations_Scan_end _ _ _ _ Hs). apply Scan_pending in Hs.
    by intros [= <- <-].
Qed.

Lemma parseStatistics_pending fuel s r x s2 :
  parseStatistics fuel s = Ret (r, x, s2) -> pending s2 = pending s /\ x = err s2.
Proof.
  intros (st1 & s1 & st2 & H1 & H2 & -> & _)%parseStatistics_inv.
  apply statistics_loop_pending in H1. apply parseOperations_pending in H2.
  split; congruence.
Qed.

Lemma Parse_loop_pending fuel s acc ms x :
  Parse_loop fuel s acc = Ret (ms, x) -> x = pending s.
Proof.
  revert s acc. induction fuel as [|fuel IH]; intros s acc; [discriminate|].
  destruct (Scan s) as [[|] s0] eqn:Hs.
  - rewrite (Parse_loop_Scan _ _ _ _ Hs). apply Scan_pending in Hs.
    destruct (is_header _); [|intros H%IH; congruence].
    destruct (parseStatistics fuel s0) as [[[r y] s2]| |] eqn:E; simpl;
      try discriminate.
    apply parseStatistics_pending in E as [Hp ->].
    destruct (err s2) as [e2|] eqn:Herr.
    + intros [= _ <-]. rewrite <- Hs, <- Hp. unfold pending. by rewrite Herr.
    + intros H%IH. congruence.
  - rewrite (Parse_loop_Scan_end _ _ _ _ Hs). intros [= _ <-].
    by apply Scan_end_pending.
Qed.

(** ** Where [Parse] cannot panic *)

Lemma indexable_block_line text :
  indexable text = true ->
  ends_statistics (strings.Fields text) = false ->
  block_line text = true.
Proof. unfold indexable, block_line. intros -> ->. done. Qed.

Lemma statistics_loop_returns fuel s st :
  forallb indexable (lines_of (future s)) = true ->
  (remaining s < fuel)%nat ->
  exists st1 s1,
    statistics_loop fuel s st = Ret (st1, s1)
    /\ forallb indexable (lines_of (future s1)) = true
    /\ Operation st1 = Operation st.
Proof.
  revert s st. induction fuel as [|fuel IH]; intros s st Hsafe Hfuel; [lia|].
  destruct (Scan s) as [[|] s0] eqn:Hs.
  - rewrite (statistics_loop_Scan _ _ _ _ Hs).
    rewrite (Scan_lines _ _ Hs) in Hsafe. simpl in Hsafe.
    apply andb_true_iff in Hsafe as [Htok Hsafe]. apply Scan_true in Hs.
    destruct (ends_statistics _) eqn:Hends; [eauto|].
    destruct (line_effect_block_line (token s0) st) as (st2 & E & O);
      [by apply indexable_block_line|].
    rewrite E. simpl.
    destruct (IH s0 st2 Hsafe) as (st1 & s1 & E1 & Hsafe1 & O1); [lia|].
    exists st1, s1. repeat split; [done|done|congruence].
  - rewrite (statistics_loop_Scan_end _ _ _ _ Hs).
    exists st, s0. by rewrite (Scan_from_false _ _ _ Hs).
Qed.

Lemma parseOperations_returns fuel s st :
  forallb indexable (lines_of (future s)) = true ->
  is_Some (Operation st) ->
  (remaining s < fuel)%nat ->
  exists st1 s1,
    parseOperations fuel s st = Ret (st1, s1)
    /\ forallb indexable (lines_of (future s1)) = true.
Proof.
  revert s st. induction fuel as [|fuel IH]; intros s st Hsafe [m Hm] Hfuel; [lia|].
  destruct (Scan s) as [[|] s0] eqn:Hs.
  - rewrite (parseOperations_Scan _ _ _ _ Hs).
    rewrite (Scan_lines _ _ Hs) in Hsafe. simpl in Hsafe.
    apply andb_true_iff in Hsafe as [_ Hsafe]. apply Scan_true in Hs.
    destruct (ends_operations _) eqn:Hends; [eauto|].
    destruct (operation_effect_allocated _ st m Hends Hm) as (st2 & m2 & E & O).
    rewrite E. simpl. apply IH; [done|by eexists|lia].
  - rewrite (parseOperations_Scan_end _ _ _ _ Hs).
    exists st, s0. by rewrite (Scan_from_false _ _ _ Hs).
Qed.

Lemma parseStatistics_returns fuel s :
  forallb indexable (lines_of (future s)) = true ->
  (remaining s < fuel)%nat ->
  exists r x s2,
    parseStatistics fuel s = Ret (r, x, s2)
    /\ forallb indexable (lines_of (future s2)) = true.
Proof.
  intros Hsafe Hfuel. unfold parseStatistics.
  destruct (statistics_loop_returns fuel s NewStatistics Hsafe Hfuel)
    as (st1 & s1 & E1 & Hsafe1 & O1).
  rewrite E1. simpl. apply statistics_loop_remaining in E1.
  destruct (parseOperations_returns fuel s1 st1 Hsafe1) as (st2 & s2 & E2 & Hsafe2);
    [rewrite O1; by eexists|lia|].
  rewrite E2. simpl. destruct (Err s2); eauto.
Qed.

Lemma Parse_loop_returns fuel s acc :
  forallb indexable (lines_of (future s)) = true ->
  (remaining s < fuel)%nat ->
  exists ms x, Parse_loop fuel s acc = Ret (ms, x).
Proof.
  revert s acc. induction fuel as [|fuel IH]; intros s acc Hsafe Hfuel; [lia|].
  destruct (Scan s) as [[|] s0] eqn:Hs.
  - rewrite (Parse_loop_Scan _ _ _ _ Hs).
    rewrite (Scan_lines _ _ Hs) in Hsafe. simpl in Hsafe.
    apply andb_true_iff in Hsafe as [_ Hsafe]. apply Scan_true in Hs.
    destruct (is_header _); [|apply IH; [done|lia]].
    destruct (parseStatistics_returns fuel s0 Hsafe) as (r & x & s2 & E & Hsafe2);
      [lia|].
    rewrite E. simpl. apply parseStatistics_remaining in E.
    destruct x; [eauto|]. apply IH; [done|lia].
  - rewrite (Parse_loop_Scan_end _ _ _ _ Hs). eauto.
Qed.

(** ** A recorded error stays *)

Lemma Scan_from_err items e b s : Scan_from items (Some e) = (b, s) -> err s = Some e.
Proof.
  induction items as [|[text|x] rest IH]; simpl; intros H.
  - by injection H as _ <-.
  - by injection H as _ <-.
  - by apply IH.
Qed.

Lemma Scan_err s e b s' : err s = Some e -> Scan s = (b, s') -> err s' = Some e.
Proof. unfold Scan. intros ->. apply Scan_from_err. Qed.

Lemma statistics_loop_err fuel s st st1 s1 e :
  err s = Some e -> statistics_loop fuel s st = Ret (st1, s1) -> err s1 = Some e.
Proof.
  revert s st. induction fuel as [|fuel IH]; intros s st Herr; [discriminate|].
  destruct (Scan s) as [[|] s0] eqn:Hs.
  - rewrite (statistics_loop_Scan _ _ _ _ Hs). apply (Scan_err _ _ _ _ Herr) in Hs.
    destruct (ends_statistics _); [by intros [= <- <-]|].
    destruct (line_effect _ st) as [st2| |]; simpl; try discriminate.
    by apply IH.
  - rewrite (statistics_loop_Scan_end _ _ _ _ Hs). apply (Scan_err _ _ _ _ Herr) in Hs.
    by intros [= <- <-].
Qed.

Lemma parseOperations_err fuel s st st1 s1 e :
  err s = Some e -> parseOperations fuel s st = Ret (st1, s1) -> err s1 = Some e.
Proof.
  revert s st. induction fuel as [|fuel IH]; intros s st Herr; [discriminate|].
  destruct (Scan s) as [[|] s0] eqn:Hs.
  - rewrite (parseOperations_Scan _ _ _ _ Hs). apply (Scan_err _ _ _ _ Herr) in Hs.
    destruct (ends_operations _); [by intros [= <- <-]|].
    destruct (operation_effect _ st) as [st2| |]; simpl; try discriminate.
    by apply IH.
  - rewrite (parseOperations_Scan_end _ _ _ _ Hs). apply (Scan_err _ _ _ _ Herr) in Hs.
    by intros [= <- <-].
Qed.

(** With its map allocated, [parseOperations] returns whatever the lines
    are. *)
Lemma parseOperations_allocated_returns fuel s st :
  is_Some (Operation st) ->
  (remaining s < fuel)%nat ->
  exists st1 s1, parseOperations fuel s st = Ret (st1, s1).
Proof.
  revert s st. induction fuel as [|fuel IH]; intros s st [m Hm] Hfuel; [lia|].
  destruct (Scan s) as [[|] s0] eqn:Hs.
  - rewrite (parseOperations_Scan _ _ _ _ Hs). apply Scan_true in Hs.
    destruct (ends_operations _) eqn:Hends; [eauto|].
    destruct (operation_effect_allocated _ st m Hends Hm) as (st2 & m2 & E & O).
    rewrite E. simpl. apply IH; [by eexists|lia].
  - rewrite (parseOperations_Scan_end _ _ _ _ Hs). eauto.
Qed.

(** *** [parseStatistics] when the read has failed *)

(** The error is on record when [parseStatistics] starts. *)
Lemma parseStatistics_after_fault rest t e fuel :
  forallb indexable (lines_of rest) = true ->
  (length rest < fuel)%nat ->
  exists s2, parseStatistics fuel (Build_Scanner rest t (Some e)) = Ret (None, Some e, s2).
Proof.
  intros Hrest Hfuel. unfold parseStatistics.
  destruct (statistics_loop_returns fuel (Build_Scanner rest t (Some e)) NewStatistics)
    as (st1 & s1 & E1 & Hsafe1 & O1); [done|done|].
  rewrite E1. cbn [mbind outcome_bind].
  assert (err s1 = Some e) as Herr1
    by (eapply statistics_loop_err; [|exact E1]; reflexivity).
  apply statistics_loop_remaining in E1. unfold remaining in E1. simpl in E1.
  destruct (parseOperations_allocated_returns fuel s1 st1) as (st2 & s2 & E2);
    [rewrite O1; by eexists|unfold remaining; lia|].
  rewrite E2. cbn [mbind outcome_bind].
  assert (err s2 = Some e) as Herr2
    by (eapply parseOperations_err; [|exact E2]; exact Herr1).
  unfold Err. rewrite Herr2. eauto.
Qed.

(** The error is met in the statistics block. *)
Lemma parseStatistics_fault_in_block stats rest t e fuel :
  forallb block_line stats = true ->
  forallb indexable (lines_of rest) = true ->
  (length stats + S (length rest) < fuel)%nat ->
  exists s2,
    parseStatistics fuel (Build_Scanner (map Line stats ++ Fault e :: rest) t None)
    = Ret (None, Some e, s2).
Proof.
  intros Hstats Hrest Hfuel. unfold parseStatistics.
  rewrite statistics_loop_block; [|by apply forallb_block_line_ends|simpl; lia].
  destruct (statistics_block_safe stats NewStatistics Hstats) as (st0 & E0 & O0).
  rewrite E0. cbn [mbind outcome_bind].
  rewrite statistics_loop_Fault. cbn [setErr].
  destruct (statistics_loop_returns fuel (Build_Scanner rest "" (Some e)) st0)
    as (st1 & s1 & E1 & Hsafe1 & O1); [done|unfold remaining; simpl; lia|].
  rewrite E1. cbn [mbind outcome_bind].
  assert (err s1 = Some e) as Herr1
    by (eapply statistics_loop_err; [|exact E1]; reflexivity).
  apply statistics_loop_remaining in E1. unfold remaining in E1. simpl in E1.
  destruct (parseOperations_allocated_returns fuel s1 st1) as (st2 & s2 & E2);
    [rewrite O1, O0; by eexists|unfold remaining; lia|].
  rewrite E2. cbn [mbind outcome_bind].
  assert (err s2 = Some e) as Herr2
    by (eapply parseOperations_err; [|exact E2]; exact Herr1).
  unfold Err. rewrite Herr2. eauto.
Qed.

(** The error is met in the table of operations. *)
Lemma parseStatistics_fault_in_table stats closing ops rest t e fuel :
  forallb block_line stats = true ->
  ends_statistics (strings.Fields closing) = true ->
  forallb operation_line ops = true ->
  (length stats + S (length ops + S (length rest)) < fuel)%nat ->
  exists s2,
    parseStatistics fuel
      (Build_Scanner
         (map Line stats ++ Line closing :: map Line ops ++ Fault e :: rest) t None)
    = Ret (None, Some e, s2).
Proof.
  intros Hstats Hclosing Hops Hfuel. unfold parseStatistics.
  rewrite statistics_loop_block;
    [|by apply forallb_block_line_ends
     |simpl; rewrite length_app, length_map; simpl; lia].
  destruct (statistics_block_safe stats NewStatistics Hstats) as (st0 & E0 & O0).
  rewrite E0. cbn [mbind outcome_bind].
  rewrite statistics_loop_Line by (rewrite length_app, length_map; simpl; lia).
  rewrite Hclosing. cbn [mbind outcome_bind].
  rewrite parseOperations_table; [|by apply forallb_operation_line_ends|simpl; lia].
  destruct (operations_table_safe ops st0 ∅ Hops) as (st1 & m1 & E1 & O1); [done|].
  rewrite E1. cbn [mbind outcome_bind].
  rewrite parseOperations_Fault. cbn [setErr].
  destruct (parseOperations_allocated_returns fuel (Build_Scanner rest "" (Some e)) st1)
    as (st2 & s2 & E2); [by eexists|unfold remaining; simpl; lia|].
  rewrite E2. cbn [mbind outcome_bind].
  assert (err s2 = Some e) as Herr2
    by (eapply parseOperations_err; [|exact E2]; reflexivity).
  unfold Err. rewrite Herr2. eauto.
Qed.

(** * The claims *)

(** ** C1: a header right after a per-operation table *)

(** C1 (the code departs from it): the claim says that a valid header that
    follows a per-operation table without a blank line gets a record of its
    own.  In the code [parseOperations] has already taken the [device] line
    from the scanner when it breaks, and the loop of [Parse] goes on with the
    line after it: on [adjacent_mounts], which has two header lines, [Parse]
    returns the record of the first mount only. *)
Theorem Parse_drops_header_after_table :
  count_headers [header_a; "per-op statistics"; "READ: 1 2 3 4 5 6 7 8"; header_b] = 2%nat
  /\ Parse adjacent_mounts
     = Ret ([ {| Device := "server:/a"; Mountpoint := "/a";
                 MountStatistics :=
                   Some (set_Operation NewStatistics
                           (Some (<["READ" := Build_OperationCounters 1 2 3 4 5 6 7 8]> ∅)));
                 Version := 3 |} ], None).
Proof. split; vm_compute; reflexivity. Qed.

(** ** C3: malformed lines *)

(** C3 (the code departs from it): the claim says that no malformed line
    makes the parser fail.  The [age:] and [xprt:] cases read [fields[1]]
    without a look at the length of the line ([bytes:] and [events:] test it
    first), so a line that is just [age:] or just [xprt:] inside a statistics
    block is an index out of range: [Parse] panics. *)
Theorem Parse_panics_on_bare_age_or_xprt :
  Parse [Line header_a; Line "age:"] = Panic
  /\ Parse [Line header_a; Line "xprt:"] = Panic.
Proof. split; vm_compute; reflexivity. Qed.

(** ** C4: one record per header *)

(** C4: for every well-formed file (complete NFS entries and lines that are no
    headers; the end of the input may cut the last entry short), read without
    error, [Parse] returns without an error, and the number of records equals
    the number of header lines. *)
Theorem Parse_counts_headers (lines : list string) :
  well_formed lines ->
  exists ms, Parse (map Line lines) = Ret (ms, None)
             /\ length ms = count_headers lines.
Proof.
  intros (entries & last & -> & Hentries & Hlast).
  destruct (Parse_loop_entries entries Hentries) as (ms1 & Hlen1 & _ & Hrun1).
  destruct (Parse_loop_last_entry last Hlast) as (ms2 & Hlen2 & Hrun2).
  exists (ms1 ++ ms2). split.
  - unfold Parse, NewScanner. rewrite List.map_app.
    rewrite Hrun1 by (rewrite length_app, !length_map; lia).
    rewrite Hrun2 by (rewrite length_app, !length_map; lia).
    done.
  - by rewrite length_app, count_headers_app, Hlen1, Hlen2.
Qed.

Lemma complete_entries_sample_file : complete_entries sample_file.
Proof.
  apply entries_other; [reflexivity|].
  apply (entries_mount header_a ["age: 7"] "per-op statistics"
           ["READ: 1 2 3 4 5 6 7 8"] "");
    try reflexivity.
  apply (entries_mount header_b
           ["opts: rw,vers=4.1"; "age: 12"; "bytes: 1 2 3 4 5 6 7 8";
            "xprt: tcp 800 1 1 0 0 10 10 0 0 0 1 0 0"]
           "per-op statistics"
           ["NULL: 0 0 0 0 0 0 0 0"; "READ: 10 10 0 100 200 1 2 3"] "" []);
    try reflexivity.
  apply entries_end.
Defined.

Lemma well_formed_sample_then_example : well_formed (sample_file ++ example_lines).
Proof.
  exists sample_file, example_lines.
  split; [reflexivity|]. split; [exact complete_entries_sample_file|].
  apply (last_statistics
           "device 192.168.1.1:/export mounted on /mnt with fstype nfs statvers=1.1"
           [ "age: 12345"; "bytes: 1 2 3 4 5 6 7 8";
             "events: 0 0 0 0 0 0 0 0 0 0 0 0 0 0 0 0 0 0 0 0 0 0 0 0 0 0 0";
             "xprt: tcp 800 1 1 0 0 10 10 0 0 0 1 0";
             "READ: 10 10 0 100 200 1 2 3" ]);
    reflexivity.
Defined.

Lemma Parse_counts_headers_witness :
  well_formed (sample_file ++ example_lines)
  /\ exists ms, Parse (map Line (sample_file ++ example_lines)) = Ret (ms, None)
                /\ length ms = count_headers (sample_file ++ example_lines).
Proof.
  split; [exact well_formed_sample_then_example|].
  exact (Parse_counts_headers _ well_formed_sample_then_example).
Defined.

(** ** C5: the header test *)


(** ** C2: read errors *)

(** C2 (fails as stated): on [interrupted_second_mount] the first mount is
    complete (alone it gives the record [mount_a]), the read error is met
    after the header of the second mount, and [Parse] returns no record at
    all with the error. *)
Lemma Parse_drops_records_on_error_in_entry :
  Parse (map Line entry_a) = Ret ([mount_a], None)
  /\ Parse interrupted_second_mount = Ret ([], Some "read error").
Proof. split; vm_compute; reflexivity. Qed.

(** C2 (as amended): when the lines read before the error are complete
    entries ([complete_entries]) and no header is among the lines still
    delivered after the error, i.e. the error is met by the loop of [Parse]
    itself and no block is read after it, all records made so far are
    returned together with the error.  When the error is on record at the
    check that [parseStatistics] makes after its two loops, [Parse] returns
    nil together with the error: that is so when the error is met in the
    statistics block of a header, when it is met in its table of operations,
    and when a header is read among the lines delivered after the error,
    whatever is still delivered afterwards (in the table any lines, in the
    statistics block lines that cannot make the switch panic). *)
Theorem Parse_read_error (pre post stats ops : list string) (h closing : string)
    (rest any : list item) (e : error) :
  complete_entries pre ->
  forallb (fun text => negb (is_header (strings.Fields text))) post = true ->
  is_header (strings.Fields h) = true ->
  forallb block_line stats = true ->
  ends_statistics (strings.Fields closing) = true ->
  forallb operation_line ops = true ->
  forallb indexable (lines_of rest) = true ->
  exists ms,
    Parse (map Line pre) = Ret (ms, None)
    /\ length ms = count_headers pre
    /\ Parse (map Line pre ++ Fault e :: map Line post) = Ret (ms, Some e)
    /\ Parse (map Line pre ++ Line h :: map Line stats ++ [Fault e]) = Ret ([], Some e)
    /\ Parse (map Line pre ++ Line h :: map Line stats ++ Fault e :: rest)
       = Ret ([], Some e)
    /\ Parse (map Line pre ++ Line h :: map Line stats ++ Line closing
                :: map Line ops ++ Fault e :: any)
       = Ret ([], Some e)
    /\ Parse (map Line pre ++ Fault e :: map Line post ++ Line h :: rest)
       = Ret ([], Some e).
Proof.
  intros Hwf Hpost Hh Hstats Hclosing Hops Hrest.
  destruct (Parse_loop_entries pre Hwf) as (ms & Hlen & _ & Hrun).
  assert (Forall (fun text => is_header (strings.Fields text) = false) post) as Hpost'.
  { rewrite forallb_forall in Hpost. apply List.Forall_forall. intros text Hin.
    by apply negb_true_iff, Hpost. }
  assert (forall rest',
             forallb indexable (lines_of rest') = true ->
             Parse (map Line pre ++ Line h :: map Line stats ++ Fault e :: rest')
             = Ret ([], Some e)) as Hblock.
  { intros rest' Hrest'. unfold Parse, NewScanner.
    rewrite Hrun by (rewrite length_app, length_map; lia).
    rewrite Parse_loop_Line
      by (repeat (rewrite ?length_app, ?length_map; simpl); lia).
    rewrite Hh.
    destruct (parseStatistics_fault_in_block stats rest' h e
                (S (length (map Line pre ++ Line h :: map Line stats ++ Fault e :: rest')))
                Hstats Hrest') as (s2 & E).
    { repeat (rewrite ?length_app, ?length_map; simpl). lia. }
    by rewrite E. }
  exists ms. split; [|split; [done|split; [|split; [|split; [|split]]]]].
  - unfold Parse, NewScanner.
    specialize (Hrun [] "" [] (S (length (map Line pre)))).
    rewrite app_nil_r in Hrun. rewrite Hrun by (rewrite length_map; simpl; lia).
    by rewrite Parse_loop_nil by lia.
  - unfold Parse, NewScanner.
    rewrite Hrun by (rewrite length_app, length_map; lia).
    rewrite Parse_loop_Fault. cbn [setErr app].
    rewrite <- (app_nil_r (map Line post)).
    rewrite Parse_loop_skip; [|done|repeat (rewrite ?length_app, ?length_map; simpl); lia].
    by rewrite Parse_loop_nil by lia.
  - by apply Hblock.
  - by apply Hblock.
  - unfold Parse, NewScanner.
    rewrite Hrun by (rewrite length_app, length_map; lia).
    rewrite Parse_loop_Line
      by (repeat (rewrite ?length_app, ?length_map; simpl); lia).
    rewrite Hh.
    destruct (parseStatistics_fault_in_table stats closing ops any h e
                (S (length (map Line pre ++ Line h :: map Line stats ++ Line closing
                              :: map Line ops ++ Fault e :: any)))
                Hstats Hclosing Hops) as (s2 & E).
    { repeat (rewrite ?length_app, ?length_map; simpl). lia. }
    by rewrite E.
  - unfold Parse, NewScanner.
    rewrite Hrun by (rewrite length_app, length_map; lia).
    rewrite Parse_loop_Fault. cbn [setErr app].
    rewrite Parse_loop_skip;
      [|done|repeat (rewrite ?length_app, ?length_map; simpl); lia].
    rewrite Parse_loop_Line
      by (repeat (rewrite ?length_app, ?length_map; simpl); lia).
    rewrite Hh.
    destruct (parseStatistics_after_fault rest h e
                (S (length (map Line pre ++ Fault e :: map Line post ++ Line h :: rest)))
                Hrest) as (s2 & E).
    { repeat (rewrite ?length_app, ?length_map; simpl). lia. }
    by rewrite E.
Qed.

Lemma Parse_read_error_witness :
  complete_entries entry_a
  /\ exists ms,
      Parse (map Line entry_a) = Ret (ms, None)
      /\ length ms = count_headers entry_a
      /\ Parse (map Line entry_a ++ Fault "read error" :: map Line ["age: 1"])
         = Ret (ms, Some "read error")
      /\ Parse (map Line entry_a ++ Line header_b :: map Line ["age: 12"]
                  ++ [Fault "read error"])
         = Ret ([], Some "read error")
      /\ Parse (map Line entry_a ++ Line header_b :: map Line ["age: 12"]
                  ++ Fault "read error" :: [Line "bytes: 1 2"; Line ""; Line header_a])
         = Ret ([], Some "read error")
      /\ Parse (map Line entry_a ++ Line header_b :: map Line ["age: 12"]
                  ++ Line "per-op statistics" :: map Line ["READ: 1 2 3 4 5 6 7 8"]
                  ++ Fault "read error" :: [Line "WRITE: 1 2 3 4 5 6 7 8"; Line "age:"])
         = Ret ([], Some "read error")
      /\ Parse (map Line entry_a ++ Fault "read error" :: map Line ["age: 1"]
                  ++ Line header_b :: [Line "bytes: 1 2"; Line ""; Line header_a])
         = Ret ([], Some "read error").
Proof.
  assert (complete_entries entry_a) as Hwf.
  { apply (entries_mount header_a ["age: 7"] "per-op statistics"
             ["READ: 1 2 3 4 5 6 7 8"] "" []);
      try reflexivity.
    apply entries_end. }
  split; [exact Hwf|].
  apply (Parse_read_error entry_a ["age: 1"] ["age: 12"] ["READ: 1 2 3 4 5 6 7 8"]
           header_b "per-op statistics"
           [Line "bytes: 1 2"; Line ""; Line header_a]
           [Line "WRITE: 1 2 3 4 5 6 7 8"; Line "age:"] "read error" Hwf);
    reflexivity.
Defined.

(** ** C6: numeric conversion *)

(** C6 (fails as stated): the token [18446744073709551616] is no valid
    unsigned 64-bit decimal, and the counter read from it is not zero but
    [2^64-1], the value [strconv.ParseUint] hands back with its range
    error. *)
Lemma overflowing_token_is_not_zero :
  valid_uint64 "18446744073709551616" = false
  /\ Parse overflowing_bytes
     = Ret ([ {| Device := "server:/a"; Mountpoint := "/a";
                 MountStatistics :=
                   Some (set_Byte NewStatistics
                           (Build_ByteCounters 18446744073709551615 2 3 4 5 6 7 8));
                 Version := 3 |} ], None).
Proof. split; vm_compute; reflexivity. Qed.

(** C6 (as amended): every positional numeric token is converted by
    [ParseUint(token, 10, 64)] and the error is dropped.  The field is the
    number the token denotes when the token is a valid unsigned 64-bit
    decimal; otherwise it is zero, except that it is [2^64-1] when the
    leading digits of the token already exceed 64 bits.  [makeUint64]
    converts every element so; an [age:], [bytes:], [events:] or [xprt:] line
    does what [line_effect] says and an operation line what
    [operation_effect] says, with these values: no conversion stops the line
    or the loop. *)
Theorem numeric_conversion (s : string) (fields : list string) (st : Statistics)
    (fuel : nat) (text : string) (rest : list item) (t : string) (e : option error) :
  (strconv.ParseUint s).1
  = (if valid_uint64 s then decimal s
     else if strconv.maxUint64 <? decimal (leading_digits s) then strconv.maxUint64
     else 0)
  /\ makeUint64 fields = map (fun element => (strconv.ParseUint element).1) fields
  /\ statistics_switch fields st = line_effect fields st
  /\ statistics_loop (S fuel) (Build_Scanner (Line text :: rest) t e) st
     = (if ends_statistics (strings.Fields text)
        then Ret (st, Build_Scanner rest text e)
        else st1 ← line_effect (strings.Fields text) st;
             statistics_loop fuel (Build_Scanner rest text e) st1)
  /\ parseOperations (S fuel) (Build_Scanner (Line text :: rest) t e) st
     = (if ends_operations (strings.Fields text)
        then Ret (st, Build_Scanner rest text e)
        else st1 ← operation_effect (strings.Fields text) st;
             parseOperations fuel (Build_Scanner rest text e) st1).
Proof.
  split; [apply ParseUint_value|].
  split.
  { rewrite makeUint64_map. apply map_ext. intros a. by rewrite ParseUint_value. }
  split; [apply statistics_switch_effect|].
  split.
  - by rewrite statistics_loop_Line_S, statistics_switch_effect.
  - by rewrite parseOperations_Line_S, operations_step_effect.
Qed.

(** ** C7: repeated operation names *)

(** C7: in a per-operation table (the lines up to the end of the input or to
    the first line that stops the loop), after a 9-token line [last] that no
    later 9-token line of the table shares its name with, the map holds the
    counters of [last] under that name, whatever lines of that name came
    before; the keys of the map are pairwise distinct. *)
Theorem last_operation_line_wins (before after tail : list string) (last : string)
    (t : string) (e : option error) (st : Statistics)
    (m : gmap string OperationCounters) (fuel : nat) :
  Operation st = Some m ->
  forallb operation_line (before ++ last :: after) = true ->
  length (strings.Fields last) = 9%nat ->
  forallb (fun text =>
             negb ((length (strings.Fields text) =? 9)%nat
                   && String.eqb (operation_name (strings.Fields text))
                                 (operation_name (strings.Fields last))))
          after = true ->
  closes_operations tail = true ->
  (length (before ++ last :: after) + length tail < fuel)%nat ->
  exists st1 m1 s1,
    parseOperations fuel
      (Build_Scanner (map Line (before ++ last :: after) ++ map Line tail) t e) st
    = Ret (st1, s1)
    /\ Operation st1 = Some m1
    /\ m1 !! operation_name (strings.Fields last)
       = Some (operation_counters (strings.Fields last))
    /\ NoDup (map_to_list m1).*1.
Proof.
  intros Hm Hlines Hlast Hafter Hclose Hfuel.
  pose proof (forallb_operation_line_ends _ Hlines) as Hends.
  rewrite forallb_app in Hlines. apply andb_true_iff in Hlines as [Hbefore Hrest].
  cbn [forallb] in Hrest. apply andb_true_iff in Hrest as [Hl Hafter'].
  destruct (operations_table_safe before st m Hbefore Hm) as (st1 & m1 & E1 & O1).
  set (name := operation_name (strings.Fields last)) in *.
  set (c := operation_counters (strings.Fields last)) in *.
  assert (operations_step (strings.Fields last) st1
          = Ret (set_Operation st1 (Some (<[name := c]> m1)))) as E2.
  { rewrite operations_step_effect. unfold operation_effect, assign_Operation.
    destruct (strings.Fields last) as [|f0 fs] eqn:Hf; [done|].
    rewrite Hlast, O1. reflexivity. }
  destruct (operations_table_keep name after
              (set_Operation st1 (Some (<[name := c]> m1))) (<[name := c]> m1)
              Hafter' Hafter eq_refl) as (st3 & m3 & E3 & O3 & L3).
  assert (exists s1, parseOperations fuel (Build_Scanner (map Line tail) "" e) st3
                     = Ret (st3, s1)) as (s1 & E4).
  { destruct tail as [|x tail]; simpl in *.
    - rewrite parseOperations_nil by lia. eauto.
    - rewrite parseOperations_Line by (rewrite length_map; lia).
      rewrite Hclose. eauto. }
  exists st3, m3, s1. split; [|split; [done|split]].
  - rewrite parseOperations_table by (rewrite ?length_map; done).
    rewrite operations_table_app, E1. cbn [mbind outcome_bind operations_table].
    rewrite E2. cbn [mbind outcome_bind]. rewrite E3. cbn [mbind outcome_bind].
    exact E4.
  - rewrite L3. apply lookup_insert_eq.
  - apply NoDup_fst_map_to_list.
Qed.

Lemma last_operation_line_wins_witness :
  exists st1 m1 s1,
    parseOperations 6
      (Build_Scanner
         (map Line (["READ: 1 1 1 1 1 1 1 1"; "not an operation"]
                      ++ "READ: 2 3 4 5 6 7 8 9" :: ["WRITE: 9 9 9 9 9 9 9 9"])
            ++ map Line [""]) "" None) NewStatistics
    = Ret (st1, s1)
    /\ Operation st1 = Some m1
    /\ m1 !! operation_name (strings.Fields "READ: 2 3 4 5 6 7 8 9")
       = Some (operation_counters (strings.Fields "READ: 2 3 4 5 6 7 8 9"))
    /\ NoDup (map_to_list m1).*1.
Proof.
  apply (last_operation_line_wins
           ["READ: 1 1 1 1 1 1 1 1"; "not an operation"] ["WRITE: 9 9 9 9 9 9 9 9"] [""]
           "READ: 2 3 4 5 6 7 8 9" "" None NewStatistics ∅ 6);
    first [reflexivity | simpl; lia].
Defined.

(** ** C8: a short [bytes:] line *)

(** C8: in a statistics block read without error (the lines up to the end of
    the input or to the first line that stops the loop) whose only [bytes:]
    line has fewer than 9 tokens, [parseStatistics] returns statistics whose
    byte counters are all zero; they are the very statistics it returns for
    the block without that line, so the other lines have been processed and
    nothing was aborted.  They are the statistics of the record that [Parse]
    makes for the header in front of the block. *)
Theorem short_bytes_line_ignored (before after tail : list string) (line : string)
    (t : string) (fuel : nat) :
  forallb (fun text => block_line text
                       && negb (String.eqb (tok (strings.Fields text) 0) "bytes:"))
          (before ++ after) = true ->
  String.eqb (tok (strings.Fields line) 0) "bytes:" = true ->
  (length (strings.Fields line) < 9)%nat ->
  closes_statistics tail = true ->
  (length (before ++ line :: after ++ tail) < fuel)%nat ->
  exists st s1,
    parseStatistics fuel
      (Build_Scanner (map Line (before ++ line :: after ++ tail)) t None)
    = Ret (Some st, None, s1)
    /\ Byte st = zeroByteCounters
    /\ parseStatistics fuel (Build_Scanner (map Line (before ++ after ++ tail)) t None)
       = Ret (Some st, None, s1)
    /\ forall h ms,
        is_header (strings.Fields h) = true ->
        Parse (Line h :: map Line (before ++ line :: after ++ tail)) = Ret (ms, None) ->
        exists more, ms = header_mount (strings.Fields h) (Some st) :: more.
Proof.
  intros Hlines Hbytes Hshort Hclose Hfuel.
  assert (forallb block_line (before ++ after) = true) as Hblock.
  { rewrite forallb_forall in Hlines |- *. intros text Hin.
    specialize (Hlines text Hin). by apply andb_true_iff in Hlines as [? _]. }
  apply String.eqb_eq in Hbytes.
  destruct (strings.Fields line) as [|f0 fs] eqn:Hf; [done|].
  unfold tok in Hbytes. simpl in Hbytes. subst f0.
  destruct (parseStatistics_ignored before line after tail t fuel Hblock)
    as (st0 & st & s1 & E0 & Hwith & Hwithout & HB & _); try done.
  { by rewrite Hf. }
  { intros st. rewrite Hf. unfold line_effect.
    change (String.eqb "bytes:" "age:") with false.
    change (String.eqb "bytes:" "bytes:") with true. cbn iota.
    destruct (Nat.eqb_spec (length ("bytes:" :: fs)) 9); [lia|done]. }
  exists st, s1. split; [done|]. split; [|split; [done|]].
  - destruct (statistics_block_Byte _ NewStatistics Hlines) as (st0' & E0' & HB').
    rewrite E0 in E0'. inversion E0'; subst. by rewrite HB, HB'.
  - intros h ms Hh. eapply Parse_header_first; [done| |exact Hwith].
    by rewrite length_map.
Qed.

Lemma short_bytes_line_ignored_witness :
  exists st s1,
    parseStatistics 7
      (Build_Scanner
         (map Line (["age: 7"] ++ "bytes: 1 2 3" :: ["events: 0"]
                      ++ ["per-op statistics"; "READ: 1 2 3 4 5 6 7 8"; ""]))
         "" None)
    = Ret (Some st, None, s1)
    /\ Byte st = zeroByteCounters
    /\ parseStatistics 7
         (Build_Scanner
            (map Line (["age: 7"] ++ ["events: 0"]
                         ++ ["per-op statistics"; "READ: 1 2 3 4 5 6 7 8"; ""]))
            "" None)
       = Ret (Some st, None, s1)
    /\ forall h ms,
        is_header (strings.Fields h) = true ->
        Parse (Line h
                 :: map Line (["age: 7"] ++ "bytes: 1 2 3" :: ["events: 0"]
                                ++ ["per-op statistics"; "READ: 1 2 3 4 5 6 7 8"; ""]))
        = Ret (ms, None) ->
        exists more, ms = header_mount (strings.Fields h) (Some st) :: more.
Proof.
  apply (short_bytes_line_ignored ["age: 7"] ["events: 0"]
           ["per-op statistics"; "READ: 1 2 3 4 5 6 7 8"; ""] "bytes: 1 2 3" "" 7);
    first [reflexivity | vm_compute; lia].
Defined.

(** ** C9: a transport other than tcp *)

(** C9: in a statistics block read without error in which an [xprt:] line has
    a second token other than [tcp], and no [xprt:] line has the second token
    [tcp], [parseStatistics] returns statistics whose transport counters are
    all zero; they are the statistics it returns for the block without that
    line: the line sets nothing.  They are the statistics of the record that
    [Parse] makes for the header in front of the block. *)
Theorem other_transport_ignored (before after tail : list string) (line : string)
    (t : string) (fuel : nat) :
  forallb (fun text => block_line text
                       && negb (String.eqb (tok (strings.Fields text) 0) "xprt:"
                                && String.eqb (tok (strings.Fields text) 1) "tcp"))
          (before ++ after) = true ->
  String.eqb (tok (strings.Fields line) 0) "xprt:" = true ->
  (2 <= length (strings.Fields line))%nat ->
  String.eqb (tok (strings.Fields line) 1) "tcp" = false ->
  closes_statistics tail = true ->
  (length (before ++ line :: after ++ tail) < fuel)%nat ->
  exists st s1,
    parseStatistics fuel
      (Build_Scanner (map Line (before ++ line :: after ++ tail)) t None)
    = Ret (Some st, None, s1)
    /\ Transport st = zeroTransportCounters
    /\ parseStatistics fuel (Build_Scanner (map Line (before ++ after ++ tail)) t None)
       = Ret (Some st, None, s1)
    /\ forall h ms,
        is_header (strings.Fields h) = true ->
        Parse (Line h :: map Line (before ++ line :: after ++ tail)) = Ret (ms, None) ->
        exists more, ms = header_mount (strings.Fields h) (Some st) :: more.
Proof.
  intros Hlines Hxprt Hsecond Hudp Hclose Hfuel.
  assert (forallb block_line (before ++ after) = true) as Hblock.
  { rewrite forallb_forall in Hlines |- *. intros text Hin.
    specialize (Hlines text Hin). by apply andb_true_iff in Hlines as [? _]. }
  apply String.eqb_eq in Hxprt.
  destruct (strings.Fields line) as [|f0 fs] eqn:Hf; [done|].
  unfold tok in Hxprt. simpl in Hxprt. subst f0.
  destruct (parseStatistics_ignored before line after tail t fuel Hblock)
    as (st0 & st & s1 & E0 & Hwith & Hwithout & _ & HT); try done.
  { by rewrite Hf. }
  { intros st. rewrite Hf. unfold line_effect.
    change (String.eqb "xprt:" "age:") with false.
    change (String.eqb "xprt:" "bytes:") with false.
    change (String.eqb "xprt:" "events:") with false.
    change (String.eqb "xprt:" "xprt:") with true. cbn iota.
    rewrite Hudp. cbn [andb].
    destruct (Nat.leb_spec 2 (length ("xprt:" :: fs))); [done|lia]. }
  exists st, s1. split; [done|]. split; [|split; [done|]].
  - destruct (statistics_block_Transport _ NewStatistics Hlines) as (st0' & E0' & HT').
    rewrite E0 in E0'. inversion E0'; subst. by rewrite HT, HT'.
  - intros h ms Hh. eapply Parse_header_first; [done| |exact Hwith].
    by rewrite length_map.
Qed.

Lemma other_transport_ignored_witness :
  exists st s1,
    parseStatistics 7
      (Build_Scanner
         (map Line (["age: 7"] ++ "xprt: udp 800 1 1 0 0 10 10 0 0 0 1 0 0"
                      :: ["bytes: 1 2 3 4 5 6 7 8"]
                      ++ ["per-op statistics"; "READ: 1 2 3 4 5 6 7 8"; ""]))
         "" None)
    = Ret (Some st, None, s1)
    /\ Transport st = zeroTransportCounters
    /\ parseStatistics 7
         (Build_Scanner
            (map Line (["age: 7"] ++ ["bytes: 1 2 3 4 5 6 7 8"]
                         ++ ["per-op statistics"; "READ: 1 2 3 4 5 6 7 8"; ""]))
            "" None)
       = Ret (Some st, None, s1)
    /\ forall h ms,
        is_header (strings.Fields h) = true ->
        Parse (Line h
                 :: map Line (["age: 7"] ++ "xprt: udp 800 1 1 0 0 10 10 0 0 0 1 0 0"
                                :: ["bytes: 1 2 3 4 5 6 7 8"]
                                ++ ["per-op statistics"; "READ: 1 2 3 4 5 6 7 8"; ""]))
        = Ret (ms, None) ->
        exists more, ms = header_mount (strings.Fields h) (Some st) :: more.
Proof.
  apply (other_transport_ignored ["age: 7"] ["bytes: 1 2 3 4 5 6 7 8"]
           ["per-op statistics"; "READ: 1 2 3 4 5 6 7 8"; ""]
           "xprt: udp 800 1 1 0 0 10 10 0 0 0 1 0 0" "" 7);
    first [reflexivity | vm_compute; lia].
Defined.

(** ** C10: what every returned mount looks like *)

(** C10: every mount in the sequence [Parse] returns has a statistics record
    (the pointer is not nil) whose operation map is allocated, and its
    version is 3 or 4. *)
Theorem Parse_mounts_ok (reader : list item) (ms : list NFSMount) (e : option error) :
  Parse reader = Ret (ms, e) -> Forall mount_ok ms.
Proof. intros H. by eapply Parse_loop_mount_ok; [constructor|exact H]. Qed.

Lemma Parse_mounts_ok_witness :
  Parse (map Line entry_a) = Ret ([mount_a], None) /\ Forall mount_ok [mount_a].
Proof.
  assert (Parse (map Line entry_a) = Ret ([mount_a], None)) as H
    by (vm_compute; reflexivity).
  split; [exact H|]. exact (Parse_mounts_ok _ _ _ H).
Defined.

(** * Further properties of the parser *)

(** ** The error [Parse] returns and where it cannot panic *)

(** X2: whenever [Parse] returns, the error it returns is the first read
    error of the input, and nil when the input has none. *)
Theorem Parse_returns_first_fault (reader : list item) (ms : list NFSMount)
    (e : option error) :
  Parse reader = Ret (ms, e) -> e = first_fault reader.
Proof. intros H. by apply Parse_loop_pending in H. Qed.

Lemma Parse_returns_first_fault_witness :
  Parse interrupted_second_mount = Ret ([], Some "read error")
  /\ Some "read error" = first_fault interrupted_second_mount.
Proof.
  assert (Parse interrupted_second_mount = Ret ([], Some "read error")) as H
    by (vm_compute; reflexivity).
  split; [exact H|]. exact (Parse_returns_first_fault _ _ _ H).
Defined.

(** X1: [Parse] returns, with the first read error of the input if there is
    one, on every input in which each [age:] line and each [xprt:] line has a
    second token; no other line can make it panic. *)
Theorem Parse_returns_on_indexable_lines (reader : list item) :
  forallb indexable (lines_of reader) = true ->
  exists ms, Parse reader = Ret (ms, first_fault reader).
Proof.
  intros Hsafe.
  destruct (Parse_loop_returns (S (length reader)) (NewScanner reader) [] Hsafe)
    as (ms & x & E); [unfold remaining; simpl; lia|].
  exists ms. unfold Parse. rewrite E.
  apply Parse_loop_pending in E. by rewrite E.
Qed.

Lemma Parse_returns_on_indexable_lines_witness :
  exists ms, Parse adjacent_mounts = Ret (ms, first_fault adjacent_mounts).
Proof. apply (Parse_returns_on_indexable_lines adjacent_mounts). reflexivity. Defined.

(** ** Lines that are no headers *)

(** X3: lines in front of the input that are no mount headers (the entry of
    another file system, the header of an NFS mount of another [statvers] and
    the lines of its block, blank lines) leave no trace: [Parse] gives what
    it gives for the rest of the input. *)
Theorem Parse_skips_other_lines (skipped : list string) (rest : list item) :
  forallb (fun text => negb (is_header (strings.Fields text))) skipped = true ->
  Parse (map Line skipped ++ rest) = Parse rest.
Proof.
  intros Hskip. unfold Parse, NewScanner.
  rewrite Parse_loop_skip.
  - apply Parse_loop_fuel; unfold remaining; simpl; [|lia].
    rewrite length_app. lia.
  - rewrite forallb_forall in Hskip. apply List.Forall_forall. intros text Hin.
    by apply negb_true_iff, Hskip.
  - rewrite length_app, length_map. lia.
Qed.

Lemma Parse_skips_other_lines_witness :
  Parse (map Line [ "device server:/old mounted on /old with fstype nfs statvers=1.0";
                    "age: 5"; "bytes: 1 2 3 4 5 6 7 8"; "" ]
           ++ map Line entry_a)
  = Parse (map Line entry_a).
Proof.
  apply (Parse_skips_other_lines
           [ "device server:/old mounted on /old with fstype nfs statvers=1.0";
             "age: 5"; "bytes: 1 2 3 4 5 6 7 8"; "" ] (map Line entry_a)).
  reflexivity.
Defined.

(** ** Files put end to end *)

Lemma Parse_loop_acc fuel s acc ms :
  Parse_loop fuel s acc = Ret (ms, None) ->
  forall pre, Parse_loop fuel s (pre ++ acc) = Ret (pre ++ ms, None).
Proof.
  revert s acc. induction fuel as [|fuel IH]; intros s acc; [discriminate|].
  intros H pre. revert H.
  destruct (Scan s) as [[|] s0] eqn:Hs.
  - rewrite !(Parse_loop_Scan _ _ _ _ Hs).
    destruct (is_header _); [|intros H; by apply IH].
    destruct (parseStatistics fuel s0) as [[[r x] s2]| |]; simpl; try discriminate.
    destruct x; [discriminate|].
    rewrite <- app_assoc. intros H. by apply IH.
  - rewrite !(Parse_loop_Scan_end _ _ _ _ Hs). by intros [= <- ->].
Qed.

(** X4: complete entries in front of an input add their records in front of
    its records: when [Parse] returns [ms] without error for the rest, it
    returns the records of the entries followed by [ms] for the whole. *)
Theorem Parse_after_complete_entries (entries : list string) :
  complete_entries entries ->
  exists ms1,
    Parse (map Line entries) = Ret (ms1, None)
    /\ length ms1 = count_headers entries
    /\ forall rest ms,
        Parse rest = Ret (ms, None) ->
        Parse (map Line entries ++ rest) = Ret (ms1 ++ ms, None).
Proof.
  intros Hentries.
  destruct (Parse_loop_entries entries Hentries) as (ms1 & Hlen & _ & Hrun).
  exists ms1. split; [|split; [done|]].
  - unfold Parse, NewScanner.
    specialize (Hrun [] "" [] (S (length (map Line entries)))).
    rewrite app_nil_r in Hrun. rewrite Hrun by (rewrite length_map; simpl; lia).
    by rewrite Parse_loop_nil by lia.
  - intros rest ms Hrest. unfold Parse, NewScanner in *.
    rewrite Hrun by (rewrite length_app, length_map; lia).
    rewrite (Parse_loop_fuel _ (S (length (map Line entries ++ rest)))) in Hrest
      by (unfold remaining; simpl; rewrite ?length_app; lia).
    apply Parse_loop_acc with (pre := ms1) in Hrest.
    by rewrite app_nil_r in Hrest.
Qed.

Lemma Parse_after_complete_entries_witness :
  exists ms1,
    Parse (map Line entry_a) = Ret (ms1, None)
    /\ length ms1 = count_headers entry_a
    /\ forall rest ms,
        Parse rest = Ret (ms, None) ->
        Parse (map Line entry_a ++ rest) = Ret (ms1 ++ ms, None).
Proof.
  apply (Parse_after_complete_entries entry_a).
  apply (entries_mount header_a ["age: 7"] "per-op statistics"
           ["READ: 1 2 3 4 5 6 7 8"] "" []);
    try reflexivity.
  apply entries_end.
Defined.

(** ** Records and header lines *)

Lemma statistics_loop_suffix fuel s st st1 s1 :
  statistics_loop fuel s st = Ret (st1, s1) ->
  lines_of (future s1) `suffix_of` lines_of (future s).
Proof.
  revert s st. induction fuel as [|fuel IH]; intros s st; [discriminate|].
  destruct (Scan s) as [[|] s0] eqn:Hs.
  - rewrite (statistics_loop_Scan _ _ _ _ Hs), (Scan_lines _ _ Hs).
    destruct (ends_statistics _); [intros [= <- <-]; by apply suffix_cons_r|].
    destruct (line_effect _ st) as [st2| |]; simpl; try discriminate.
    intros H%IH. by apply suffix_cons_r.
  - rewrite (statistics_loop_Scan_end _ _ _ _ Hs). intros [= <- <-].
    rewrite (Scan_from_false _ _ _ Hs). apply suffix_nil.
Qed.

Lemma parseOperations_suffix fuel s st st1 s1 :
  parseOperations fuel s st = Ret (st1, s1) ->
  lines_of (future s1) `suffix_of` lines_of (future s).
Proof.
  revert s st. induction fuel as [|fuel IH]; intros s st; [discriminate|].
  destruct (Scan s) as [[|] s0] eqn:Hs.
  - rewrite (parseOperations_Scan _ _ _ _ Hs), (Scan_lines _ _ Hs).
    destruct (ends_operations _); [intros [= <- <-]; by apply suffix_cons_r|].
    destruct (operation_effect _ st) as [st2| |]; simpl; try discriminate.
    intros H%IH. by apply suffix_cons_r.
  - rewrite (parseOperations_Scan_end _ _ _ _ Hs). intros [= <- <-].
    rewrite (Scan_from_false _ _ _ Hs). apply suffix_nil.
Qed.

Lemma parseStatistics_suffix fuel s r x s2 :
  parseStatistics fuel s = Ret (r, x, s2) ->
  lines_of (future s2) `suffix_of` lines_of (future s).
Proof.
  intros (st1 & s1 & st2 & H1 & H2 & _)%parseStatistics_inv.
  apply statistics_loop_suffix in H1. apply parseOperations_suffix in H2.
  by etrans.
Qed.

Lemma headers_suffix l1 l2 :
  l1 `suffix_of` l2 ->
  map header_key (headers l1) `sublist_of` map header_key (headers l2).
Proof.
  intros [k ->]. unfold headers. rewrite filter_app, List.map_app.
  by apply sublist_inserts_l.
Qed.

Lemma Parse_loop_keys fuel s acc ms x :
  Parse_loop fuel s acc = Ret (ms, x) ->
  ms = []
  \/ exists more,
      ms = acc ++ more
      /\ map mount_key more `sublist_of` map header_key (headers (lines_of (future s))).
Proof.
  revert s acc. induction fuel as [|fuel IH]; intros s acc; [discriminate|].
  destruct (Scan s) as [[|] s0] eqn:Hs.
  - rewrite (Parse_loop_Scan _ _ _ _ Hs), (Scan_lines _ _ Hs). unfold headers.
    destruct (is_header _) eqn:Hh.
    + rewrite filter_cons_True by done.
      destruct (parseStatistics fuel s0) as [[[r y] s2]| |] eqn:E; simpl;
        try discriminate.
      apply parseStatistics_suffix, headers_suffix in E.
      destruct y; [intros [= <- _]; by left|].
      intros [->|(more & -> & Hsub)]%IH; [by left|right].
      exists (header_mount (strings.Fields (token s0)) r :: more).
      split; [by rewrite <- app_assoc|].
      simpl. apply sublist_skip. by etrans.
    + rewrite filter_cons_False by (by rewrite Hh). apply IH.
  - rewrite (Parse_loop_Scan_end _ _ _ _ Hs). intros [= <- _]. right.
    exists []. split; [by rewrite app_nil_r|]. apply sublist_nil_l.
Qed.

(** X5: for any input, the records [Parse] returns stand for header lines of
    the input, in the order of the input: their devices, mount points and
    versions are a subsequence of those of the header lines.  So there are
    never more records than header lines. *)
Theorem Parse_records_follow_headers (reader : list item) (ms : list NFSMount)
    (e : option error) :
  Parse reader = Ret (ms, e) ->
  map mount_key ms `sublist_of` map header_key (headers (lines_of reader))
  /\ (length ms <= count_headers (lines_of reader))%nat.
Proof.
  intros H. apply Parse_loop_keys in H.
  assert (map mount_key ms `sublist_of` map header_key (headers (lines_of reader)))
    as Hsub.
  { destruct H as [->|(more & -> & Hsub)]; [apply sublist_nil_l|done]. }
  split; [done|].
  apply sublist_length in Hsub. rewrite !length_map in Hsub. done.
Qed.

Lemma Parse_records_follow_headers_witness :
  Parse adjacent_mounts
  = Ret ([ set_MountStatistics (header_mount (strings.Fields header_a) None)
             (Some (set_Operation NewStatistics
                      (Some (<["READ" := Build_OperationCounters 1 2 3 4 5 6 7 8]> ∅)))) ],
         None)
  /\ [("server:/a", "/a", 3)]
       `sublist_of` map header_key (headers (lines_of adjacent_mounts))
  /\ (1 <= count_headers (lines_of adjacent_mounts))%nat.
Proof.
  assert (Parse adjacent_mounts
          = Ret ([ set_MountStatistics (header_mount (strings.Fields header_a) None)
                     (Some (set_Operation NewStatistics
                              (Some (<["READ" := Build_OperationCounters 1 2 3 4 5 6 7 8]> ∅)))) ],
                 None)) as H by (vm_compute; reflexivity).
  split; [exact H|]. exact (Parse_records_follow_headers _ _ _ H).
Defined.

Lemma lines_of_Line lines : lines_of (map Line lines) = lines.
Proof. induction lines as [|text lines IH]; simpl; congruence. Qed.

Lemma sublist_same_length {A : Type} (l1 l2 : list A) :
  l1 `sublist_of` l2 -> (length l2 <= length l1)%nat -> l1 = l2.
Proof.
  induction 1 as [|x l1 l2 _ IH|x l1 l2 Hsub _]; simpl; intros Hlen.
  - done.
  - f_equal. apply IH. lia.
  - apply sublist_length in Hsub. lia.
Qed.

(** X6: for a well-formed file the records are those of the header lines, one
    for one and in their order: the i-th record has the device, the mount
    point and the version of the i-th header line. *)
Theorem Parse_records_are_headers (lines : list string) :
  well_formed lines ->
  exists ms,
    Parse (map Line lines) = Ret (ms, None)
    /\ map mount_key ms = map header_key (headers lines).
Proof.
  intros (entries & last & -> & Hentries & Hlast).
  destruct (Parse_loop_entries entries Hentries) as (ms1 & Hlen1 & _ & Hrun1).
  destruct (Parse_loop_last_entry last Hlast) as (ms2 & Hlen2 & Hrun2).
  assert (Parse (map Line (entries ++ last)) = Ret (ms1 ++ ms2, None)) as Hparse.
  { unfold Parse, NewScanner. rewrite List.map_app.
    rewrite Hrun1 by (rewrite length_app, !length_map; lia).
    by rewrite Hrun2 by (rewrite length_app, !length_map; lia). }
  exists (ms1 ++ ms2). split; [done|].
  apply Parse_loop_keys in Hparse. simpl in Hparse. rewrite lines_of_Line in Hparse.
  apply sublist_same_length.
  - destruct Hparse as [->|(more & -> & Hsub)]; [apply sublist_nil_l|done].
  - rewrite !length_map, length_app, Hlen1, Hlen2, <- count_headers_app. done.
Qed.

Lemma Parse_records_are_headers_witness :
  exists ms,
    Parse (map Line (sample_file ++ example_lines)) = Ret (ms, None)
    /\ map mount_key ms = map header_key (headers (sample_file ++ example_lines)).
Proof.
  apply (Parse_records_are_headers (sample_file ++ example_lines)).
  exists sample_file, example_lines.
  split; [reflexivity|]. split.
  - apply entries_other; [reflexivity|].
    apply (entries_mount header_a ["age: 7"] "per-op statistics"
             ["READ: 1 2 3 4 5 6 7 8"] "");
      try reflexivity.
    apply (entries_mount header_b
             ["opts: rw,vers=4.1"; "age: 12"; "bytes: 1 2 3 4 5 6 7 8";
              "xprt: tcp 800 1 1 0 0 10 10 0 0 0 1 0 0"]
             "per-op statistics"
             ["NULL: 0 0 0 0 0 0 0 0"; "READ: 10 10 0 100 200 1 2 3"] "" []);
      try reflexivity.
    apply entries_end.
  - apply (last_statistics
             "device 192.168.1.1:/export mounted on /mnt with fstype nfs statvers=1.1"
             [ "age: 12345"; "bytes: 1 2 3 4 5 6 7 8";
               "events: 0 0 0 0 0 0 0 0 0 0 0 0 0 0 0 0 0 0 0 0 0 0 0 0 0 0 0";
               "xprt: tcp 800 1 1 0 0 10 10 0 0 0 1 0";
               "READ: 10 10 0 100 200 1 2 3" ]);
      reflexivity.
Defined.

(** ** What [parseOperations] leaves alone *)

Lemma operation_effect_frame fields st st1 :
  operation_effect fields st = Ret st1 ->
  Age st1 = Age st /\ Byte st1 = Byte st /\ Event st1 = Event st
  /\ Transport st1 = Transport st.
Proof.
  unfold operation_effect, assign_Operation. destruct fields as [|f0 fs]; [done|].
  destruct (_ =? 9)%nat; [|by intros [= <-]].
  destruct (Operation st); [|done]. by intros [= <-].
Qed.

Lemma parseOperations_frame fuel s st st1 s1 :
  parseOperations fuel s st = Ret (st1, s1) ->
  Age st1 = Age st /\ Byte st1 = Byte st /\ Event st1 = Event st
  /\ Transport st1 = Transport st.
Proof.
  revert s st. induction fuel as [|fuel IH]; intros s st; [discriminate|].
  destruct (Scan s) as [[|] s0] eqn:Hs.
  - rewrite (parseOperations_Scan _ _ _ _ Hs).
    destruct (ends_operations _); [by intros [= <- <-]|].
    destruct (operation_effect _ st) as [st2| |] eqn:E; simpl; try discriminate.
    apply operation_effect_frame in E as (? & ? & ? & ?).
    intros (? & ? & ? & ?)%IH. repeat split; congruence.
  - rewrite (parseOperations_Scan_end _ _ _ _ Hs). by intros [= <- <-].
Qed.

(** X7: the two loops keep to their own fields: the loop over the statistics
    block never changes the map of operations, and [parseOperations] changes
    nothing but that map (age, byte, event and transport counters stay as
    they are). *)
Theorem loops_keep_to_their_fields (fuel : nat) (s s1 s2 : Scanner)
    (st st1 st2 : Statistics) :
  statistics_loop fuel s st = Ret (st1, s1) ->
  parseOperations fuel s1 st1 = Ret (st2, s2) ->
  Operation st1 = Operation st
  /\ Age st2 = Age st1 /\ Byte st2 = Byte st1 /\ Event st2 = Event st1
  /\ Transport st2 = Transport st1.
Proof.
  intros H1 H2. split; [by eapply statistics_loop_Operation|].
  by eapply parseOperations_frame.
Qed.

Lemma loops_keep_to_their_fields_witness :
  Operation (set_Age NewStatistics 7) = Operation NewStatistics
  /\ Age mount_a_statistics = 7
  /\ Byte mount_a_statistics = zeroByteCounters
  /\ Event mount_a_statistics = zeroEventCounters
  /\ Transport mount_a_statistics = zeroTransportCounters.
Proof.
  apply (loops_keep_to_their_fields 5
           (Build_Scanner (map Line ["age: 7"; "per-op statistics";
                                     "READ: 1 2 3 4 5 6 7 8"; ""]) "" None)
           (Build_Scanner (map Line ["READ: 1 2 3 4 5 6 7 8"; ""])
                          "per-op statistics" None)
           (Build_Scanner [] "" None)
           NewStatistics (set_Age NewStatistics 7) mount_a_statistics);
    vm_compute; reflexivity.
Defined.

(** ** Where the operation entries come from *)

Lemma entry_from_suffix l1 l2 name c :
  l1 `suffix_of` l2 -> entry_from l1 name c -> entry_from l2 name c.
Proof.
  intros [k ->] (text & Hin & H). exists text. split; [|done].
  apply elem_of_app. by right.
Qed.

Lemma parseOperations_from fuel s st st1 s1 m :
  parseOperations fuel s st = Ret (st1, s1) ->
  Operation st = Some m ->
  exists m1,
    Operation st1 = Some m1
    /\ forall name c, m1 !! name = Some c ->
         m !! name = Some c \/ entry_from (lines_of (future s)) name c.
Proof.
  revert s st m. induction fuel as [|fuel IH]; intros s st m; [discriminate|].
  destruct (Scan s) as [[|] s0] eqn:Hs.
  - rewrite (parseOperations_Scan _ _ _ _ Hs), (Scan_lines _ _ Hs).
    destruct (ends_operations _); [intros [= <- <-] Hm; eauto|].
    unfold operation_effect, assign_Operation.
    destruct (strings.Fields (token s0)) as [|f0 fs] eqn:Hf; [done|].
    destruct (length (f0 :: fs) =? 9)%nat eqn:Hlen.
    + intros H Hm. rewrite Hm in H. simpl in H.
      eapply IH in H as (m1 & Hm1 & Hfrom); [|done].
      exists m1. split; [done|]. intros name c Hc.
      destruct (Hfrom name c Hc) as [Hins|Hlater].
      * apply lookup_insert_Some in Hins as [[<- <-]|[_ Hold]]; [|by left].
        right. exists (token s0). rewrite Hf.
        split; [apply elem_of_cons; by left|]. by apply Nat.eqb_eq in Hlen.
      * right. eapply entry_from_suffix; [|done]. by apply suffix_cons_r.
    + simpl. intros H Hm.
      eapply IH in H as (m1 & Hm1 & Hfrom); [|done].
      exists m1. split; [done|]. intros name c Hc.
      destruct (Hfrom name c Hc) as [?|Hlater]; [by left|].
      right. eapply entry_from_suffix; [|done]. by apply suffix_cons_r.
  - rewrite (parseOperations_Scan_end _ _ _ _ Hs). intros [= <- <-] Hm. eauto.
Qed.

Lemma parseStatistics_from fuel s st x s2 ops name c :
  parseStatistics fuel s = Ret (Some st, x, s2) ->
  Operation st = Some ops -> ops !! name = Some c ->
  entry_from (lines_of (future s)) name c.
Proof.
  intros (st1 & s1 & st2 & H1 & H2 & _ & Hr)%parseStatistics_inv Hops Hc.
  destruct (err s2); [done|]. injection Hr as ->.
  pose proof (statistics_loop_Operation _ _ _ _ _ H1) as O1.
  pose proof (statistics_loop_suffix _ _ _ _ _ H1) as Hsuf.
  destruct (parseOperations_from _ _ _ _ _ ∅ H2 O1) as (m1 & Hm1 & Hfrom).
  rewrite Hops in Hm1. injection Hm1 as <-.
  destruct (Hfrom name c Hc) as [Hempty|Hin]; [by rewrite lookup_empty in Hempty|].
  by eapply entry_from_suffix.
Qed.

Lemma Parse_loop_from lines fuel s acc ms x :
  lines_of (future s) `suffix_of` lines ->
  Forall (operations_from lines) acc ->
  Parse_loop fuel s acc = Ret (ms, x) ->
  Forall (operations_from lines) ms.
Proof.
  revert s acc. induction fuel as [|fuel IH]; intros s acc Hsuf Hacc; [discriminate|].
  destruct (Scan s) as [[|] s0] eqn:Hs.
  - rewrite (Parse_loop_Scan _ _ _ _ Hs). rewrite (Scan_lines _ _ Hs) in Hsuf.
    assert (lines_of (future s0) `suffix_of` lines) as Hsuf0.
    { destruct Hsuf as [k ->]. exists (k ++ [token s0]). by rewrite <- app_assoc. }
    destruct (is_header _); [|by apply IH].
    destruct (parseStatistics fuel s0) as [[[r y] s2]| |] eqn:E; simpl;
      try discriminate.
    destruct y; [intros [= <- _]; constructor|].
    apply IH.
    + apply parseStatistics_suffix in E. by etrans.
    + apply Forall_app. split; [done|]. constructor; [|done].
      intros st ops name c Hst Hops Hc. simpl in Hst. subst r.
      eapply entry_from_suffix; [exact Hsuf0|].
      by eapply parseStatistics_from.
  - rewrite (Parse_loop_Scan_end _ _ _ _ Hs). by intros [= <- _].
Qed.

(** X8: every entry of the operation map of every record [Parse] returns
    comes from a line of the input: a line of exactly 9 tokens whose first
    token, without one trailing colon, is the key, and whose other tokens give
    the counters in order.  Nothing is stored for a line of another length. *)
Theorem Parse_operations_come_from_lines (reader : list item) (ms : list NFSMount)
    (e : option error) :
  Parse reader = Ret (ms, e) -> Forall (operations_from (lines_of reader)) ms.
Proof. intros H. by eapply Parse_loop_from; [|constructor|exact H]. Qed.

Lemma Parse_operations_come_from_lines_witness :
  Parse (map Line entry_a) = Ret ([mount_a], None)
  /\ Forall (operations_from (lines_of (map Line entry_a))) [mount_a].
Proof.
  assert (Parse (map Line entry_a) = Ret ([mount_a], None)) as H
    by (vm_compute; reflexivity).
  split; [exact H|]. exact (Parse_operations_come_from_lines _ _ _ H).
Defined.

(** ** Every counter is a [uint64] *)

Lemma decimal_all_digits_nonneg s : all_digits s = true -> 0 <= decimal s.
Proof.
  intros H. unfold decimal. rewrite <- (leading_all_digits s H) at 1.
  by apply decimal_from_leading_ge.
Qed.

Lemma token_value_range s : in_range (token_value s).
Proof.
  unfold token_value, in_range, valid_uint64. rewrite maxUint64_value.
  destruct (_ && _ && _) eqn:Hvalid.
  - apply andb_true_iff in Hvalid as [Hvalid Hmax].
    apply andb_true_iff in Hvalid as [_ Hdigits].
    apply Z.leb_le in Hmax. rewrite ?maxUint64_value in Hmax.
    apply decimal_all_digits_nonneg in Hdigits. lia.
  - destruct (_ <? _); lia.
Qed.

Ltac all_in_range tac :=
  unfold byte_values, event_values, transport_values, operation_values;
  repeat (apply Forall_cons_2; [tac|]); apply Forall_nil_2.

Lemma NewStatistics_in_range : statistics_in_range NewStatistics.
Proof.
  unfold statistics_in_range, in_range. rewrite maxUint64_value. simpl.
  split; [lia|]. do 3 (split; [all_in_range ltac:(vm_compute; split; discriminate)|]).
  intros ops [= <-]. apply map_Forall_empty.
Qed.

Lemma line_effect_in_range fields st st1 :
  line_effect fields st = Ret st1 -> statistics_in_range st -> statistics_in_range st1.
Proof.
  unfold line_effect. destruct fields as [|f0 fs]; [done|].
  intros H (HA & HB & HE & HT & HO). revert H.
  repeat match goal with
         | |- context [if ?b then _ else _] => destruct b
         end; intros [= <-]; unfold statistics_in_range; simpl;
    (split; [first [done|apply token_value_range]|]);
    (split; [first [done|all_in_range ltac:(apply token_value_range)]|]);
    (split; [first [done|all_in_range ltac:(apply token_value_range)]|]);
    (split; [first [done|all_in_range ltac:(apply token_value_range)]|done]).
Qed.

Lemma operation_effect_in_range fields st st1 :
  operation_effect fields st = Ret st1 -> statistics_in_range st ->
  statistics_in_range st1.
Proof.
  unfold operation_effect, assign_Operation. destruct fields as [|f0 fs]; [done|].
  intros H (HA & HB & HE & HT & HO). revert H.
  destruct (_ =? 9)%nat; [|by intros [= <-]].
  destruct (Operation st) as [m|] eqn:Hm; [|done]. intros [= <-].
  unfold statistics_in_range. simpl. do 4 (split; [done|]).
  intros ops [= <-]. apply map_Forall_insert_2; [|by apply HO].
  all_in_range ltac:(apply token_value_range).
Qed.

Lemma statistics_loop_in_range fuel s st st1 s1 :
  statistics_loop fuel s st = Ret (st1, s1) ->
  statistics_in_range st -> statistics_in_range st1.
Proof.
  revert s st. induction fuel as [|fuel IH]; intros s st; [discriminate|].
  destruct (Scan s) as [[|] s0] eqn:Hs.
  - rewrite (statistics_loop_Scan _ _ _ _ Hs).
    destruct (ends_statistics _); [by intros [= <- <-]|].
    destruct (line_effect _ st) as [st2| |] eqn:E; simpl; try discriminate.
    intros H Hst. eapply IH; [done|]. by eapply line_effect_in_range.
  - rewrite (statistics_loop_Scan_end _ _ _ _ Hs). by intros [= <- <-].
Qed.

Lemma parseOperations_in_range fuel s st st1 s1 :
  parseOperations fuel s st = Ret (st1, s1) ->
  statistics_in_range st -> statistics_in_range st1.
Proof.
  revert s st. induction fuel as [|fuel IH]; intros s st; [discriminate|].
  destruct (Scan s) as [[|] s0] eqn:Hs.
  - rewrite (parseOperations_Scan _ _ _ _ Hs).
    destruct (ends_operations _); [by intros [= <- <-]|].
    destruct (operation_effect _ st) as [st2| |] eqn:E; simpl; try discriminate.
    intros H Hst. eapply IH; [done|]. by eapply operation_effect_in_range.
  - rewrite (parseOperations_Scan_end _ _ _ _ Hs). by intros [= <- <-].
Qed.

Lemma parseStatistics_in_range fuel s st x s2 :
  parseStatistics fuel s = Ret (Some st, x, s2) -> statistics_in_range st.
Proof.
  intros (st1 & s1 & st2 & H1 & H2 & _ & Hr)%parseStatistics_inv.
  destruct (err s2); [done|]. injection Hr as ->.
  eapply parseOperations_in_range; [done|].
  eapply statistics_loop_in_range; [done|]. apply NewStatistics_in_range.
Qed.

Lemma Parse_loop_in_range fuel s acc ms x :
  Forall mount_in_range acc ->
  Parse_loop fuel s acc = Ret (ms, x) ->
  Forall mount_in_range ms.
Proof.
  revert s acc. induction fuel as [|fuel IH]; intros s acc Hacc; [discriminate|].
  destruct (Scan s) as [[|] s0] eqn:Hs.
  - rewrite (Parse_loop_Scan _ _ _ _ Hs).
    destruct (is_header _); [|by apply IH].
    destruct (parseStatistics fuel s0) as [[[r y] s2]| |] eqn:E; simpl;
      try discriminate.
    destruct y; [intros [= <- _]; constructor|].
    apply IH. apply Forall_app. split; [done|]. constructor; [|done].
    intros st Hst. simpl in Hst. subst r. by eapply parseStatistics_in_range.
  - rewrite (Parse_loop_Scan_end _ _ _ _ Hs). by intros [= <- _].
Qed.

(** X9: every number in every record [Parse] returns is an unsigned 64-bit
    value: the age, the byte, event and transport counters and the counters
    of every operation lie between 0 and [2^64-1], whatever the tokens of the
    input are. *)
Theorem Parse_counters_in_range (reader : list item) (ms : list NFSMount)
    (e : option error) :
  Parse reader = Ret (ms, e) -> Forall mount_in_range ms.
Proof. intros H. by eapply Parse_loop_in_range; [constructor|exact H]. Qed.

Lemma Parse_counters_in_range_witness :
  Parse overflowing_bytes
  = Ret ([ set_MountStatistics (header_mount (strings.Fields header_a) None)
             (Some (set_Byte NewStatistics
                      (Build_ByteCounters 18446744073709551615 2 3 4 5 6 7 8))) ],
         None)
  /\ Forall mount_in_range
       [ set_MountStatistics (header_mount (strings.Fields header_a) None)
           (Some (set_Byte NewStatistics
                    (Build_ByteCounters 18446744073709551615 2 3 4 5 6 7 8))) ].
Proof.
  assert (Parse overflowing_bytes
          = Ret ([ set_MountStatistics (header_mount (strings.Fields header_a) None)
                     (Some (set_Byte NewStatistics
                              (Build_ByteCounters 18446744073709551615 2 3 4 5 6 7 8))) ],
                 None)) as H by (vm_compute; reflexivity).
  split; [exact H|]. exact (Parse_counters_in_range _ _ _ H).
Defined.

(** X10: [makeUint64] returns one value for each field, in the order of the
    fields, and every value is an unsigned 64-bit value; it cannot fail. *)
Theorem makeUint64_length_and_range (fields : list string) :
  length (makeUint64 fields) = length fields
  /\ Forall in_range (makeUint64 fields)
  /\ forall i field, fields !! i = Some field ->
       makeUint64 fields !! i = Some (strconv.ParseUint field).1.
Proof.
  rewrite makeUint64_map. split; [by rewrite length_map|]. split.
  - induction fields as [|f fields IH]; simpl; [apply Forall_nil_2|].
    apply Forall_cons_2; [apply token_value_range|done].
  - intros i field Hi. rewrite ParseUint_value.
    change (map token_value fields) with (token_value <$> fields).
    by rewrite list_lookup_fmap, Hi.
Qed.

(** ** The last line of a kind decides *)

Section last_setter.

Context {A : Type} (get : Statistics -> A) (sets : list string -> option A).

(** A line that sets the field sets it to the value of [sets], any other line
    keeps it; the table of operations keeps it. *)
Hypothesis line_sets :
  forall fields st st1,
    line_effect fields st = Ret st1 -> get st1 = default (get st) (sets fields).
Hypothesis table_keeps :
  forall fuel s st st1 s1, parseOperations fuel s st = Ret (st1, s1) -> get st1 = get st.

Lemma statistics_block_keeps lines st st1 :
  Forall (fun text => sets (strings.Fields text) = None) lines ->
  statistics_block lines st = Ret st1 ->
  get st1 = get st.
Proof.
  intros Hlines. revert st.
  induction Hlines as [|text lines Hnone _ IH]; intros st; simpl; [by intros [= <-]|].
  rewrite statistics_switch_effect.
  destruct (line_effect _ st) as [st2| |] eqn:E; simpl; try discriminate.
  intros H%IH. apply line_sets in E. rewrite Hnone in E. simpl in E. congruence.
Qed.

Lemma statistics_block_last before line after st st1 a :
  sets (strings.Fields line) = Some a ->
  Forall (fun text => sets (strings.Fields text) = None) after ->
  statistics_block (before ++ line :: after) st = Ret st1 ->
  get st1 = a.
Proof.
  intros Hsets Hafter. rewrite statistics_block_app.
  destruct (statistics_block before st) as [stb| |]; simpl; try discriminate.
  rewrite statistics_switch_effect.
  destruct (line_effect _ stb) as [stl| |] eqn:E; simpl; try discriminate.
  intros H. apply statistics_block_keeps in H; [|done].
  apply line_sets in E. rewrite Hsets in E. simpl in E. congruence.
Qed.

Lemma parseStatistics_last before line after tail t fuel a :
  forallb block_line (before ++ line :: after) = true ->
  sets (strings.Fields line) = Some a ->
  Forall (fun text => sets (strings.Fields text) = None) after ->
  closes_statistics tail = true ->
  (length ((before ++ line :: after) ++ tail) < fuel)%nat ->
  exists st s1,
    parseStatistics fuel
      (Build_Scanner (map Line ((before ++ line :: after) ++ tail)) t None)
    = Ret (Some st, None, s1)
    /\ get st = a.
Proof.
  intros Hblock Hsets Hafter Hclose Hfuel.
  set (block := before ++ line :: after) in *.
  rewrite length_app in Hfuel.
  pose proof (forallb_block_line_ends _ Hblock) as Hends.
  destruct (statistics_block_safe block NewStatistics Hblock) as (st0 & E0 & O0).
  destruct (parseStatistics_block block tail t fuel st0)
    as (st & s1 & Hrun & _); try done.
  exists st, s1. split; [done|].
  apply parseStatistics_inv in Hrun as (st1 & s2 & st2 & H1 & H2 & _ & Hr).
  simpl in Hr. destruct (err s1); [done|]. injection Hr as ->.
  rewrite List.map_app, statistics_loop_block in H1 by (rewrite ?length_map; done).
  rewrite E0 in H1. cbn [mbind outcome_bind] in H1.
  destruct (statistics_loop_closed tail st0 fuel Hclose) as (t1 & Hclosed); [lia|].
  rewrite Hclosed in H1. injection H1 as <- <-.
  rewrite (table_keeps _ _ _ _ _ H2).
  by eapply statistics_block_last.
Qed.

End last_setter.

Ltac line_cases f0 :=
  destruct (String.eqb_spec f0 "age:") as [->|?];
  [|destruct (String.eqb_spec f0 "bytes:") as [->|?];
    [|destruct (String.eqb_spec f0 "events:") as [->|?];
      [|destruct (String.eqb_spec f0 "xprt:") as [->|?]]]].

Ltac line_sets_proof :=
  repeat match goal with
         | |- context [if ?b then _ else _] => destruct b
         end; try discriminate; intros [= <-]; reflexivity.

Lemma line_sets_Age fields st st1 :
  line_effect fields st = Ret st1 -> Age st1 = default (Age st) (sets_Age fields).
Proof.
  unfold line_effect, sets_Age. destruct fields as [|f0 fs]; [done|].
  change (tok (f0 :: fs) 0) with f0. line_cases f0; simpl String.eqb; line_sets_proof.
Qed.

Lemma line_sets_Byte fields st st1 :
  line_effect fields st = Ret st1 -> Byte st1 = default (Byte st) (sets_Byte fields).
Proof.
  unfold line_effect, sets_Byte. destruct fields as [|f0 fs]; [done|].
  change (tok (f0 :: fs) 0) with f0. line_cases f0; simpl String.eqb; cbn [andb];
    line_sets_proof.
Qed.

Lemma line_sets_Event fields st st1 :
  line_effect fields st = Ret st1 -> Event st1 = default (Event st) (sets_Event fields).
Proof.
  unfold line_effect, sets_Event. destruct fields as [|f0 fs]; [done|].
  change (tok (f0 :: fs) 0) with f0. line_cases f0; simpl String.eqb; cbn [andb];
    line_sets_proof.
Qed.

Lemma line_sets_Transport fields st st1 :
  line_effect fields st = Ret st1 ->
  Transport st1 = default (Transport st) (sets_Transport fields).
Proof.
  unfold line_effect, sets_Transport. destruct fields as [|f0 fs]; [done|].
  change (tok (f0 :: fs) 0) with f0. line_cases f0; simpl String.eqb; cbn [andb];
    line_sets_proof.
Qed.

Ltac none_after H sets :=
  rewrite forallb_forall in H; apply List.Forall_forall; intros text Hin;
  specialize (H text Hin); apply negb_true_iff in H; unfold sets; by rewrite H.

(** X11: in a statistics block read without error, the age of the statistics
    is the value of the second token of the last [age:] line. *)
Theorem last_age_line_wins (before after tail : list string) (line t : string)
    (fuel : nat) :
  forallb block_line (before ++ line :: after) = true ->
  String.eqb (tok (strings.Fields line) 0) "age:" = true ->
  forallb (fun text => negb (String.eqb (tok (strings.Fields text) 0) "age:")) after
  = true ->
  closes_statistics tail = true ->
  (length ((before ++ line :: after) ++ tail) < fuel)%nat ->
  exists st s1,
    parseStatistics fuel
      (Build_Scanner (map Line ((before ++ line :: after) ++ tail)) t None)
    = Ret (Some st, None, s1)
    /\ Age st = token_value (tok (strings.Fields line) 1).
Proof.
  intros Hblock Hline Hafter Hclose Hfuel.
  apply (parseStatistics_last Age sets_Age line_sets_Age); try done.
  - intros ? ? ? ? ? H. by apply parseOperations_frame in H as (? & _).
  - unfold sets_Age. by rewrite Hline.
  - none_after Hafter sets_Age.
Qed.

Lemma last_age_line_wins_witness :
  exists st s1,
    parseStatistics 6
      (Build_Scanner
         (map Line ((["age: 1"; "opts: rw"] ++ "age: 12345" :: ["caps: 0x1"])
                      ++ ["per-op statistics"]))
         "" None)
    = Ret (Some st, None, s1)
    /\ Age st = token_value (tok (strings.Fields "age: 12345") 1).
Proof.
  apply (last_age_line_wins ["age: 1"; "opts: rw"] ["caps: 0x1"] ["per-op statistics"]
           "age: 12345" "" 6);
    first [reflexivity | vm_compute; lia].
Defined.

(** X12: in a statistics block read without error, the byte counters are the
    tokens 1 to 8, in the order of the fields of [ByteCounters], of the last
    [bytes:] line that has 9 tokens. *)
Theorem last_bytes_line_wins (before after tail : list string) (line t : string)
    (fuel : nat) :
  forallb block_line (before ++ line :: after) = true ->
  String.eqb (tok (strings.Fields line) 0) "bytes:" = true ->
  length (strings.Fields line) = 9%nat ->
  forallb (fun text => negb (String.eqb (tok (strings.Fields text) 0) "bytes:"
                             && (length (strings.Fields text) =? 9)%nat)) after
  = true ->
  closes_statistics tail = true ->
  (length ((before ++ line :: after) ++ tail) < fuel)%nat ->
  exists st s1,
    parseStatistics fuel
      (Build_Scanner (map Line ((before ++ line :: after) ++ tail)) t None)
    = Ret (Some st, None, s1)
    /\ Byte st = byte_counters (strings.Fields line).
Proof.
  intros Hblock Hline Hlen Hafter Hclose Hfuel.
  apply (parseStatistics_last Byte sets_Byte line_sets_Byte); try done.
  - intros ? ? ? ? ? H. by apply parseOperations_frame in H as (_ & ? & _).
  - unfold sets_Byte. by rewrite Hline, Hlen.
  - none_after Hafter sets_Byte.
Qed.

Lemma last_bytes_line_wins_witness :
  exists st s1,
    parseStatistics 6
      (Build_Scanner
         (map Line ((["bytes: 9 9 9 9 9 9 9 9"] ++ "bytes: 1 2 3 4 5 6 7 8"
                       :: ["bytes: 1 2 3"; "age: 7"])
                      ++ ["per-op statistics"]))
         "" None)
    = Ret (Some st, None, s1)
    /\ Byte st = byte_counters (strings.Fields "bytes: 1 2 3 4 5 6 7 8").
Proof.
  apply (last_bytes_line_wins ["bytes: 9 9 9 9 9 9 9 9"] ["bytes: 1 2 3"; "age: 7"]
           ["per-op statistics"] "bytes: 1 2 3 4 5 6 7 8" "" 6);
    first [reflexivity | vm_compute; lia].
Defined.

(** X13: in a statistics block read without error, the event counters are the
    tokens 1 to 27, in the order of the fields of [EventCounters], of the last
    [events:] line that has 28 tokens. *)
Theorem last_events_line_wins (before after tail : list string) (line t : string)
    (fuel : nat) :
  forallb block_line (before ++ line :: after) = true ->
  String.eqb (tok (strings.Fields line) 0) "events:" = true ->
  length (strings.Fields line) = 28%nat ->
  forallb (fun text => negb (String.eqb (tok (strings.Fields text) 0) "events:"
                             && (length (strings.Fields text) =? 28)%nat)) after
  = true ->
  closes_statistics tail = true ->
  (length ((before ++ line :: after) ++ tail) < fuel)%nat ->
  exists st s1,
    parseStatistics fuel
      (Build_Scanner (map Line ((before ++ line :: after) ++ tail)) t None)
    = Ret (Some st, None, s1)
    /\ Event st = event_counters (strings.Fields line).
Proof.
  intros Hblock Hline Hlen Hafter Hclose Hfuel.
  apply (parseStatistics_last Event sets_Event line_sets_Event); try done.
  - intros ? ? ? ? ? H. by apply parseOperations_frame in H as (_ & _ & ? & _).
  - unfold sets_Event. by rewrite Hline, Hlen.
  - none_after Hafter sets_Event.
Qed.

Lemma last_events_line_wins_witness :
  exists st s1,
    parseStatistics 5
      (Build_Scanner
         (map Line ((["age: 7"]
                       ++ "events: 1 2 3 4 5 6 7 8 9 10 11 12 13 14 15 16 17 18 19 20 21 22 23 24 25 26 27"
                       :: ["events: 1 2 3"])
                      ++ [""]))
         "" None)
    = Ret (Some st, None, s1)
    /\ Event st
       = event_counters
           (strings.Fields
              "events: 1 2 3 4 5 6 7 8 9 10 11 12 13 14 15 16 17 18 19 20 21 22 23 24 25 26 27").
Proof.
  apply (last_events_line_wins ["age: 7"] ["events: 1 2 3"] [""]
           "events: 1 2 3 4 5 6 7 8 9 10 11 12 13 14 15 16 17 18 19 20 21 22 23 24 25 26 27"
           "" 5);
    first [reflexivity | vm_compute; lia].
Defined.

(** X14: in a statistics block read without error, the transport counters are
    the tokens 2 to 14, in the order of the fields of [TransportCounters], of
    the last [xprt:] line whose second token is [tcp] and that has 15
    tokens. *)
Theorem last_tcp_line_wins (before after tail : list string) (line t : string)
    (fuel : nat) :
  forallb block_line (before ++ line :: after) = true ->
  String.eqb (tok (strings.Fields line) 0) "xprt:" = true ->
  String.eqb (tok (strings.Fields line) 1) "tcp" = true ->
  length (strings.Fields line) = 15%nat ->
  forallb (fun text => negb (String.eqb (tok (strings.Fields text) 0) "xprt:"
                             && String.eqb (tok (strings.Fields text) 1) "tcp"
                             && (length (strings.Fields text) =? 15)%nat)) after
  = true ->
  closes_statistics tail = true ->
  (length ((before ++ line :: after) ++ tail) < fuel)%nat ->
  exists st s1,
    parseStatistics fuel
      (Build_Scanner (map Line ((before ++ line :: after) ++ tail)) t None)
    = Ret (Some st, None, s1)
    /\ Transport st = transport_counters (strings.Fields line).
Proof.
  intros Hblock Hline Htcp Hlen Hafter Hclose Hfuel.
  apply (parseStatistics_last Transport sets_Transport line_sets_Transport); try done.
  - intros ? ? ? ? ? H. by apply parseOperations_frame in H as (_ & _ & _ & ?).
  - unfold sets_Transport. by rewrite Hline, Htcp, Hlen.
  - none_after Hafter sets_Transport.
Qed.

Lemma last_tcp_line_wins_witness :
  exists st s1,
    parseStatistics 5
      (Build_Scanner
         (map Line ((["age: 7"] ++ "xprt: tcp 800 1 1 0 0 10 10 0 0 0 1 0 0"
                       :: ["xprt: udp 900 1 1 0 0 10 10 0 0 0 1 0 0";
                           "xprt: tcp 800 1 1"])
                      ++ []))
         "" None)
    = Ret (Some st, None, s1)
    /\ Transport st
       = transport_counters (strings.Fields "xprt: tcp 800 1 1 0 0 10 10 0 0 0 1 0 0").
Proof.
  apply (last_tcp_line_wins ["age: 7"]
           ["xprt: udp 900 1 1 0 0 10 10 0 0 0 1 0 0"; "xprt: tcp 800 1 1"] []
           "xprt: tcp 800 1 1 0 0 10 10 0 0 0 1 0 0" "" 5);
    first [reflexivity | vm_compute; lia].
Defined.

(** ** Inputs without a header *)

Lemma Parse_loop_no_headers fuel s acc :
  headers (lines_of (future s)) = [] ->
  (remaining s < fuel)%nat ->
  Parse_loop fuel s acc = Ret (acc, pending s).
Proof.
  revert s acc. induction fuel as [|fuel IH]; intros s acc Hnone Hfuel; [lia|].
  destruct (Scan s) as [[|] s0] eqn:Hs.
  - rewrite (Parse_loop_Scan _ _ _ _ Hs).
    rewrite (Scan_lines _ _ Hs) in Hnone. unfold headers in Hnone.
    destruct (is_header (strings.Fields (token s0))) eqn:Hh.
    { by rewrite filter_cons_True in Hnone. }
    rewrite filter_cons_False in Hnone by (by rewrite Hh).
    rewrite IH; [|done|apply Scan_true in Hs; lia].
    by rewrite (Scan_pending _ _ _ Hs).
  - rewrite (Parse_loop_Scan_end _ _ _ _ Hs). by rewrite (Scan_end_pending _ _ Hs).
Qed.

(** X15: an input without a header line (the empty input, a file without NFS
    mounts of [statvers=1.1]) gives no record, never a panic, and the first
    read error of the input if there is one. *)
Theorem Parse_without_headers (reader : list item) :
  headers (lines_of reader) = [] ->
  Parse reader = Ret ([], first_fault reader).
Proof.
  intros Hnone. unfold Parse.
  rewrite Parse_loop_no_headers; [done|done|unfold remaining; simpl; lia].
Qed.

Lemma Parse_without_headers_witness :
  Parse [ Line "device /dev/sda1 mounted on / with fstype ext4";
          Line "device server:/old mounted on /old with fstype nfs statvers=1.0";
          Line "age:"; Fault "read error"; Line "" ]
  = Ret ([], first_fault
               [ Line "device /dev/sda1 mounted on / with fstype ext4";
                 Line "device server:/old mounted on /old with fstype nfs statvers=1.0";
                 Line "age:"; Fault "read error"; Line "" ]).
Proof.
  apply (Parse_without_headers
           [ Line "device /dev/sda1 mounted on / with fstype ext4";
             Line "device server:/old mounted on /old with fstype nfs statvers=1.0";
             Line "age:"; Fault "read error"; Line "" ]).
  reflexivity.
Defined.

(** ** The key of an operation *)

Lemma length_append_colon s : String.length (String.append s ":") = S (String.length s).
Proof. induction s as [|c s IH]; simpl; congruence. Qed.

Lemma substring_append_colon s :
  substring 0 (String.length s) (String.append s ":") = s
  /\ substring (String.length s) 1 (String.append s ":") = ":".
Proof.
  induction s as [|c s [IH1 IH2]]; simpl; [done|]. split; congruence.
Qed.

Lemma operation_name_append_colon (name : string) (rest : list string) :
  operation_name (String.append name ":" :: rest) = name.
Proof.
  unfold operation_name, tok, strings.TrimSuffix, strings.HasSuffix. cbn [nth].
  rewrite length_append_colon. cbn [String.length].
  replace (S (String.length name) - 1)%nat with (String.length name) by lia.
  destruct (substring_append_colon name) as [H1 H2]. rewrite H1, H2.
  reflexivity.
Qed.

(** X16: [parseOperations] stores an operation line under its first token
    without one trailing colon.  In a per-operation table (the lines up to the
    end of the input or to the first line that stops the loop), a line [last]
    of 9 tokens whose first token is [name:] leaves its counters in the map
    under the key [name] (also when [name] itself ends in a colon), provided
    that no later 9-token line of the table has that key. *)
Theorem parseOperations_key_without_colon (before after tail : list string)
    (last name : string) (args : list string)
    (t : string) (e : option error) (st : Statistics)
    (m : gmap string OperationCounters) (fuel : nat) :
  Operation st = Some m ->
  forallb operation_line (before ++ last :: after) = true ->
  strings.Fields last = String.append name ":" :: args ->
  length args = 8%nat ->
  forallb (fun text =>
             negb ((length (strings.Fields text) =? 9)%nat
                   && String.eqb (operation_name (strings.Fields text)) name))
          after = true ->
  closes_operations tail = true ->
  (length (before ++ last :: after) + length tail < fuel)%nat ->
  exists st1 m1 s1,
    parseOperations fuel
      (Build_Scanner (map Line (before ++ last :: after) ++ map Line tail) t e) st
    = Ret (st1, s1)
    /\ Operation st1 = Some m1
    /\ m1 !! name = Some (operation_counters (String.append name ":" :: args)).
Proof.
  intros Hm Hlines Hlast Hargs Hafter Hclose Hfuel.
  pose proof (forallb_operation_line_ends _ Hlines) as Hends.
  rewrite forallb_app in Hlines. apply andb_true_iff in Hlines as [Hbefore Hrest].
  cbn [forallb] in Hrest. apply andb_true_iff in Hrest as [_ Hafter'].
  destruct (operations_table_safe before st m Hbefore Hm) as (st1 & m1 & E1 & O1).
  set (c := operation_counters (String.append name ":" :: args)).
  assert (operations_step (strings.Fields last) st1
          = Ret (set_Operation st1 (Some (<[name := c]> m1)))) as E2.
  { rewrite operations_step_effect, Hlast. unfold operation_effect, assign_Operation.
    cbn [length]. rewrite Hargs, O1, operation_name_append_colon. reflexivity. }
  destruct (operations_table_keep name after
              (set_Operation st1 (Some (<[name := c]> m1))) (<[name := c]> m1)
              Hafter' Hafter eq_refl) as (st3 & m3 & E3 & O3 & L3).
  assert (exists s1, parseOperations fuel (Build_Scanner (map Line tail) "" e) st3
                     = Ret (st3, s1)) as (s1 & E4).
  { destruct tail as [|x tail]; simpl in *.
    - rewrite parseOperations_nil by lia. eauto.
    - rewrite parseOperations_Line by (rewrite length_map; lia).
      rewrite Hclose. eauto. }
  exists st3, m3, s1. split; [|split; [done|]].
  - rewrite parseOperations_table by (rewrite ?length_map; done).
    rewrite operations_table_app, E1. cbn [mbind outcome_bind operations_table].
    rewrite E2. cbn [mbind outcome_bind]. rewrite E3. cbn [mbind outcome_bind].
    exact E4.
  - rewrite L3. apply lookup_insert_eq.
Qed.

Lemma parseOperations_key_without_colon_witness :
  exists st1 m1 s1,
    parseOperations 6
      (Build_Scanner
         (map Line (["READ: 1 1 1 1 1 1 1 1"; "READ 5 5 5 5 5 5 5 5"]
                      ++ "READ:: 2 3 4 5 6 7 8 9" :: ["READ: 9 9 9 9 9 9 9 9"])
            ++ map Line [""]) "" None) NewStatistics
    = Ret (st1, s1)
    /\ Operation st1 = Some m1
    /\ m1 !! "READ:"
       = Some (operation_counters
                 (String.append "READ:" ":" :: ["2"; "3"; "4"; "5"; "6"; "7"; "8"; "9"])).
Proof.
  apply (parseOperations_key_without_colon
           ["READ: 1 1 1 1 1 1 1 1"; "READ 5 5 5 5 5 5 5 5"] ["READ: 9 9 9 9 9 9 9 9"] [""]
           "READ:: 2 3 4 5 6 7 8 9" "READ:" ["2"; "3"; "4"; "5"; "6"; "7"; "8"; "9"]
           "" None NewStatistics ∅ 6);
    first [reflexivity | simpl; lia].
Defined.
